(** * A shallow embedding of the trace agent's core

    Each component of the agent that is embedded here has a module of its
    own, which follows the source file it comes from:

    - [AsyncHooksCLS]: the continuation-local storage built on async_hooks
      (class [AsyncHooksCLS]), and [EmitterPatch], its
      [patchEmitterToPropagateContext];
    - [TracingPolicy]: [Sampler], [URLFilter], [HTTPMethodFilter] and
      [TracePolicy];
    - [TraceModel] and [WriterConfig]: spans, traces and the configuration
      the writers read;
    - [TraceWriter] (the gRPC writer of lib/trace-writer.js) and
      [TraceWriterHttp] (the older writer, which PATCHes JSON), with their
      constructors and periodic flush in [WriterTimers];
    - [AgentIndex]: the entry point of the module (index.js), with the
      public agent's [start], [stop] and [get].

    [Probes], [HookRuns], [PolicyRuns], [WriterRuns], [Samples] and
    [IndexSamples] hold the callbacks, programs, runs and inputs that the
    properties are stated with; the properties follow in [CLSProperties],
    [PolicyProperties] and [WriterProperties], and further ones in
    [CLSExtras], [PolicyExtras], [WriterExtras] and [IndexProperties].

    JavaScript numbers are idealised as rationals. A [Reference] is shared
    between the units that inherit it and is mutated in place, so the
    store carries a heap of References and [contexts] holds addresses. A
    callable is a state transformer that returns or throws; the id of the
    executing AsyncResource is passed to it, since a synchronous call
    cannot change it for its caller. Callbacks that the code hands to
    asynchronous services (the project lookup, [setImmediate],
    [setTimeout]) are modelled by what they do to the state when they
    run. *)

From stdpp Require Import gmap strings list pretty.
From Stdlib Require Import QArith Qround Lqa.

Local Close Scope Q_scope.
Local Open Scope string_scope.

(** ** Results of calls that may throw *)

Inductive Outcome (E T : Type) : Type :=
| Return (v : T)
| Throw (e : E).
Arguments Return {E T} v.
Arguments Throw {E T} e.

(** ** Continuation-local storage over async_hooks *)

Module AsyncHooksCLS.

(** Ids of AsyncResources, and addresses of [Reference] objects. *)
Definition AsyncId := nat.
Definition Ref := nat.

Section WithContext.

(** [Ctx] is the class's type parameter [Context]; [Exn] is whatever a
    callable may throw. *)
Variables (Ctx Exn : Type).
Variable defaultContext : Ctx.

(** The instance together with the part of the JavaScript heap it can
    reach: [contexts] maps an id to [undefined] ([None]) or to the address
    of a [Reference<Context>]; [refs] holds the [value] field of every
    Reference allocated so far; [hook_enabled] is the AsyncHook's own
    switch, flipped by [hook.enable()] and [hook.disable()]. *)
Record Store : Type := mkStore {
  contexts : gmap AsyncId (option Ref);
  refs : list Ctx;
  hook_enabled : bool;
  enabled : bool
}.

(** [this.contexts[id]]: a missing key and a key holding [undefined] both
    read as [undefined]. *)
Definition ctx_read (st : Store) (id : AsyncId) : option Ref :=
  match contexts st !! id with
  | Some slot => slot
  | None => None
  end.

(** [this.contexts[id] = v], where [v] may be [undefined]. *)
Definition ctx_write (st : Store) (id : AsyncId) (v : option Ref) : Store :=
  mkStore (<[id := v]> (contexts st)) (refs st) (hook_enabled st) (enabled st).

(** [delete this.contexts[id]]. *)
Definition ctx_delete (st : Store) (id : AsyncId) : Store :=
  mkStore (delete id (contexts st)) (refs st) (hook_enabled st) (enabled st).

(** [{value: v}]: a fresh Reference object. *)
Definition new_ref (st : Store) (v : Ctx) : Ref * Store :=
  (length (refs st),
   mkStore (contexts st) (refs st ++ [v]) (hook_enabled st) (enabled st)).

(** [r.value]; an address that was never allocated cannot be reached from
    JavaScript, the default is returned for it. *)
Definition ref_value (st : Store) (r : Ref) : Ctx :=
  default defaultContext (refs st !! r).

(** [r.value = v]. *)
Definition ref_assign (st : Store) (r : Ref) (v : Ctx) : Store :=
  mkStore (contexts st) (<[r := v]> (refs st)) (hook_enabled st) (enabled st).

(** A callable [Func<T>]: its code runs in the scope of the AsyncResource
    that is executing when it is called (the value of
    [executionAsyncId()], which a synchronous call cannot change for its
    caller), may change the store, and returns or throws. [WRAPPED] is the
    property keyed by the module's private symbol and [length] the arity
    the wrapper copies. Receiver and arguments are closed over by
    [call]. *)
Record Func (T : Type) : Type := mkFunc {
  call : AsyncId -> Store -> Outcome Exn T * Store;
  WRAPPED : bool;
  length_ : nat
}.
Arguments mkFunc {T} _ _ _.
Arguments call {T} _ _ _.
Arguments WRAPPED {T} _.
Arguments length_ {T} _.

(** *** The hook *)

(** [init(id, type, triggerId, resource)], run while [eid] executes. *)
Definition init (id : AsyncId) (type : string) (triggerId : AsyncId)
    (eid : AsyncId) (st : Store) : Store :=
  if String.eqb type "PROMISE"
  then ctx_write st id (ctx_read st eid)
  else ctx_write st id (ctx_read st triggerId).

(** [destroy(id)]. *)
Definition destroy (id : AsyncId) (st : Store) : Store :=
  ctx_delete st id.

(** What the runtime reports to a hook. *)
Inductive Event : Type :=
| EvInit (id : AsyncId) (type : string) (triggerId : AsyncId)
| EvDestroy (id : AsyncId).

(** The runtime calls the callbacks of a hook only while it is enabled. *)
Definition dispatch (ev : Event) (eid : AsyncId) (st : Store) : Store :=
  if hook_enabled st then
    match ev with
    | EvInit id type triggerId => init id type triggerId eid st
    | EvDestroy id => destroy id st
    end
  else st.

(** *** The CLS interface *)

Definition isEnabled (st : Store) : bool := enabled st.

Definition enable (st : Store) : Store :=
  mkStore ∅ (refs st) true true.

Definition disable (st : Store) : Store :=
  mkStore ∅ (refs st) false false.

Definition getContext (eid : AsyncId) (st : Store) : Ctx :=
  match ctx_read st eid with
  | Some current => ref_value st current
  | None => defaultContext
  end.

Definition setContext (value : Ctx) (eid : AsyncId) (st : Store) : Store :=
  let id := eid in
  match ctx_read st id with
  | Some current => ref_assign st current value
  | None =>
      let '(r, st1) := new_ref st value in
      ctx_write st1 id (Some r)
  end.

(** [try { return fn(); } finally { this.contexts[id] = oldContext; }]:
    the finally block runs on both exits and the outcome of [fn] is the
    outcome of the whole. *)
Definition runWithNewContext {T} (fn : Func T) (eid : AsyncId) (st : Store)
    : Outcome Exn T * Store :=
  let id := eid in
  let oldContext := ctx_read st id in
  let '(r, st0) := new_ref st defaultContext in
  let st1 := ctx_write st0 id (Some r) in
  let '(res, st2) := call fn id st1 in
  (res, ctx_write st2 id oldContext).

(** The closure [contextWrapper] built by [bindWithCurrentContext]. *)
Definition contextWrapper {T} (boundContext : Ref) (fn : Func T)
    : AsyncId -> Store -> Outcome Exn T * Store :=
  fun eid st =>
    let id := eid in
    let oldContext := ctx_read st id in
    let st1 := ctx_write st id (Some boundContext) in
    let '(res, st2) := call fn id st1 in
    (res, ctx_write st2 id oldContext).

Definition bindWithCurrentContext {T} (fn : Func T) (eid : AsyncId)
    (st : Store) : Func T :=
  if WRAPPED fn then fn
  else
    match ctx_read st eid with
    | None => fn
    | Some boundContext =>
        mkFunc (contextWrapper boundContext fn) true (length_ fn)
    end.

End WithContext.

Arguments mkStore {Ctx} _ _ _ _.
Arguments contexts {Ctx} _.
Arguments refs {Ctx} _.
Arguments hook_enabled {Ctx} _.
Arguments enabled {Ctx} _.
Arguments ctx_read {Ctx} _ _.
Arguments ctx_write {Ctx} _ _ _.
Arguments ctx_delete {Ctx} _ _.
Arguments new_ref {Ctx} _ _.
Arguments ref_value {Ctx} _ _ _.
Arguments ref_assign {Ctx} _ _ _.
Arguments mkFunc {Ctx Exn T} _ _ _.
Arguments call {Ctx Exn T} _ _ _.
Arguments WRAPPED {Ctx Exn T} _.
Arguments length_ {Ctx Exn T} _.
Arguments init {Ctx} _ _ _ _ _.
Arguments destroy {Ctx} _ _.
Arguments dispatch {Ctx} _ _ _.
Arguments isEnabled {Ctx} _.
Arguments enable {Ctx} _.
Arguments disable {Ctx} _.
Arguments getContext {Ctx} _ _ _.
Arguments setContext {Ctx} _ _ _.
Arguments runWithNewContext {Ctx Exn} _ {T} _ _ _.
Arguments contextWrapper {Ctx Exn T} _ _ _ _.
Arguments bindWithCurrentContext {Ctx Exn T} _ _ _.

End AsyncHooksCLS.

(** ** The tracing policy *)

Module TracingPolicy.

Local Open Scope Q_scope.

(** [x < y] on numbers. *)
Definition Qltb (x y : Q) : bool := negb (Qle_bool y x).

(** *** Sampler *)

Record Sampler : Type := mkSampler {
  traceWindow : Q;
  nextTraceStart : Q
}.

(** [new Sampler(samplesPerSecond)], with [now] the value of [Date.now()]
    read by the constructor. *)
Definition Sampler_new (samplesPerSecond : Q) (now : Q) : Sampler :=
  let samplesPerSecond :=
    if Qltb 1000 samplesPerSecond then 1000 else samplesPerSecond in
  mkSampler (1000 / samplesPerSecond) now.

Definition Sampler_shouldTrace (dateMillis : Q) (s : Sampler)
    : bool * Sampler :=
  if Qltb dateMillis (nextTraceStart s) then (false, s)
  else (true, mkSampler (traceWindow s) (dateMillis + traceWindow s)).

(** *** String helpers used by the filters *)

Definition toLowerCase_ascii (c : Ascii.ascii) : Ascii.ascii :=
  let n := Ascii.nat_of_ascii c in
  if (65 <=? n)%nat && (n <=? 90)%nat then Ascii.ascii_of_nat (n + 32) else c.

(** [s.toLowerCase()], on ASCII text. *)
Fixpoint toLowerCase (s : string) : string :=
  match s with
  | EmptyString => EmptyString
  | String c rest => String (toLowerCase_ascii c) (toLowerCase rest)
  end.

(** [xs.indexOf(x)]: the first position holding [x], or [-1]. *)
Fixpoint indexOf_from (xs : list string) (x : string) (i : Z) : Z :=
  match xs with
  | [] => (-1)%Z
  | y :: ys => if String.eqb y x then i else indexOf_from ys x (i + 1)%Z
  end.

Definition indexOf (xs : list string) (x : string) : Z := indexOf_from xs x 0%Z.

Section Filters.

(** Regular expressions are the host's: [RegExp] is their type and
    [String_match url c] tells whether [url.match(c)] is non-null, where a
    string [c] is compiled to a pattern by [match] itself. [METHODS] is
    the verb list exported by the http module. *)
Variable RegExp : Type.
Variable String_match : string -> string + RegExp -> bool.
Variable METHODS : list string.

(** *** URLFilter *)

Record URLFilter : Type := mkURLFilter {
  filterUrls : list (string + RegExp)
}.

Definition URLFilter_shouldTrace (url : string) (f : URLFilter) : bool :=
  negb (existsb
          (fun candidate =>
             match candidate with
             | inl s => String.eqb s url
             | inr _ => false
             end || String_match url candidate)
          (filterUrls f)).

(** *** HTTPMethodFilter *)

Record HTTPMethodFilter : Type := mkHTTPMethodFilter {
  filterMethods : list string
}.

Definition HTTPMethodFilter_new (filterMethods : list string)
    : HTTPMethodFilter :=
  let lowercaseMethods := map toLowerCase METHODS in
  mkHTTPMethodFilter
    (List.filter
       (fun method => negb (indexOf lowercaseMethods method =? -1)%Z)
       (map toLowerCase filterMethods)).

(** [!method] holds for an absent method and for the empty string. *)
Definition falsy_string (s : option string) : bool :=
  match s with
  | None => true
  | Some s => String.eqb s ""
  end.

Definition HTTPMethodFilter_shouldTrace (method : option string)
    (f : HTTPMethodFilter) : bool :=
  if falsy_string method then true
  else
    match method with
    | Some m => (indexOf (filterMethods f) (toLowerCase m) =? -1)%Z
    | None => true
    end.

(** *** TracePolicy *)

Record TracePolicyConfig : Type := mkTracePolicyConfig {
  samplingRate : Q;
  ignoreUrls : list (string + RegExp);
  ignoreMethods : list string
}.

(** The three predicate objects a policy holds: each is either the
    constant closure the constructor writes inline or an instance of the
    class. *)
Inductive SamplerPredicate : Type :=
| SampleAlways
| SampleNever
| SampleRate (s : Sampler).

Inductive UrlPredicate : Type :=
| UrlAlways
| UrlFiltered (f : URLFilter).

Inductive MethodPredicate : Type :=
| MethodAlways
| MethodFiltered (f : HTTPMethodFilter).

Record TracePolicy : Type := mkTracePolicy {
  sampler : SamplerPredicate;
  urlFilter : UrlPredicate;
  methodFilter : MethodPredicate
}.

(** The first [if] chain of the constructor. *)
Definition sampler_for (samplingRate : Q) (now : Q) : SamplerPredicate :=
  if Qeq_bool samplingRate 0 then SampleAlways
  else if Qltb samplingRate 0 then SampleNever
  else SampleRate (Sampler_new samplingRate now).

Definition TracePolicy_new (config : TracePolicyConfig) (now : Q)
    : TracePolicy :=
  mkTracePolicy
    (sampler_for (samplingRate config) now)
    (if (length (ignoreUrls config) =? 0)%nat then UrlAlways
     else UrlFiltered (mkURLFilter (ignoreUrls config)))
    (if (length (ignoreMethods config) =? 0)%nat then MethodAlways
     else MethodFiltered (HTTPMethodFilter_new (ignoreMethods config))).

(** What a caller of [new TracePolicy(config)] can observe besides the
    instance: whether the constructor threw, and what it logged. Neither
    constructor contains a [throw] and no logger is in scope in the
    module, so the instance is returned and nothing is logged. *)
Definition TracePolicy_construct (config : TracePolicyConfig) (now : Q)
    : Outcome string TracePolicy * list string :=
  (Return (TracePolicy_new config now), []).

(** A construction is rejected loudly when it throws or logs. *)
Definition rejected_loudly (res : Outcome string TracePolicy * list string)
    : Prop :=
  (exists e, fst res = Throw e) \/ snd res <> [].

Definition sampler_shouldTrace (timestamp : Q) (p : SamplerPredicate)
    : bool * SamplerPredicate :=
  match p with
  | SampleAlways => (true, p)
  | SampleNever => (false, p)
  | SampleRate s =>
      let '(b, s') := Sampler_shouldTrace timestamp s in (b, SampleRate s')
  end.

Definition urlFilter_shouldTrace (url : string) (p : UrlPredicate) : bool :=
  match p with
  | UrlAlways => true
  | UrlFiltered f => URLFilter_shouldTrace url f
  end.

Definition methodFilter_shouldTrace (method : option string)
    (p : MethodPredicate) : bool :=
  match p with
  | MethodAlways => true
  | MethodFiltered f => HTTPMethodFilter_shouldTrace method f
  end.

Record TraceOptions : Type := mkTraceOptions {
  timestamp : Q;
  url : string;
  method : option string
}.

(** [&&] evaluates the sampler first, so the watermark moves even when a
    filter then rejects the request. *)
Definition TracePolicy_shouldTrace (options : TraceOptions) (p : TracePolicy)
    : bool * TracePolicy :=
  let '(b, sampler') := sampler_shouldTrace (timestamp options) (sampler p) in
  (b && urlFilter_shouldTrace (url options) (urlFilter p)
     && methodFilter_shouldTrace (method options) (methodFilter p),
   mkTracePolicy sampler' (urlFilter p) (methodFilter p)).

Definition TracePolicy_always (now : Q) : TracePolicy :=
  TracePolicy_new (mkTracePolicyConfig 0 [] []) now.

Definition TracePolicy_never (now : Q) : TracePolicy :=
  TracePolicy_new (mkTracePolicyConfig (-1) [] []) now.

End Filters.

(** A run of the rate limiter: the decisions taken, in order, for a
    sequence of timestamps, each paired with its timestamp. *)
Fixpoint decisions (ts : list Q) (p : SamplerPredicate) : list (Q * bool) :=
  match ts with
  | [] => []
  | t :: ts' =>
      let '(b, p') := sampler_shouldTrace t p in (t, b) :: decisions ts' p'
  end.

(** The closed window of [len] milliseconds that starts at [from]. *)
Definition in_window (from len t : Q) : bool :=
  Qle_bool from t && Qle_bool t (from + len).

(** The positive decisions of a run that fell in the window, and how many
    they are. *)
Definition sampled (from len : Q) (ds : list (Q * bool)) : list (Q * bool) :=
  List.filter (fun d => snd d && in_window from len (fst d)) ds.

Definition sampled_in_window (from len : Q) (ds : list (Q * bool)) : nat :=
  length (sampled from len ds).

(** The predicate a policy holds after it has decided on each of [ts]. *)
Fixpoint sampler_after (ts : list Q) (p : SamplerPredicate) : SamplerPredicate :=
  match ts with
  | [] => p
  | t :: ts' => sampler_after ts' (snd (sampler_shouldTrace t p))
  end.

(** Timestamps that start at or after [lo] and lie at least [w] apart. *)
Fixpoint spaced (w lo : Q) (l : list (Q * bool)) : Prop :=
  match l with
  | [] => True
  | d :: rest => lo <= fst d /\ spaced w (fst d + w) rest
  end.

End TracingPolicy.

(** ** Spans and traces, as the writers see them *)

Module TraceModel.

(** Modelled from the spec: the class TraceSpan (src/trace-span) is not
    among the sources; only its test is. A span is a named, timed
    operation with a label map; [endTime] is the empty string while the
    span is open ("assert.equal(span.endTime, '')" on a fresh span),
    [close] sets the end timestamp and is idempotent, [isClosed] tells
    whether it is set, [setLabel] mutates the label map. *)
Record TraceSpan : Type := mkTraceSpan {
  name : string;
  spanId : nat;
  parentSpanId : nat;
  kind : string;
  startTime : string;
  endTime : string;
  labels : gmap string string
}.

Definition isClosed (s : TraceSpan) : bool :=
  negb (String.eqb (endTime s) "").

(** [close()] when the clock reads [now]. *)
Definition close (now : string) (s : TraceSpan) : TraceSpan :=
  if isClosed s then s
  else mkTraceSpan (name s) (spanId s) (parentSpanId s) (kind s)
         (startTime s) now (labels s).

Definition setLabel (key value : string) (s : TraceSpan) : TraceSpan :=
  mkTraceSpan (name s) (spanId s) (parentSpanId s) (kind s)
    (startTime s) (endTime s) (<[key := value]> (labels s)).

(** A trace object. The writers stamp it with the project: the gRPC writer
    in the property [project_id], the older one in [projectId]. *)
Record Trace : Type := mkTrace {
  traceId : string;
  spans : list TraceSpan;
  project_id : option string;
  projectId : option string
}.

(** Modelled from the spec: the class SpanData is not among the sources. A
    SpanData holds its trace and its own span, which is one of the
    trace's spans (here: the position of that span in [spans]);
    [addLabel] sets a label on that span. *)
Record SpanData : Type := mkSpanData {
  trace : Trace;
  span : nat
}.

Definition addLabel (key value : string) (sd : SpanData) : SpanData :=
  mkSpanData
    (mkTrace (traceId (trace sd))
       (alter (setLabel key value) (span sd) (spans (trace sd)))
       (project_id (trace sd)) (projectId (trace sd)))
    (span sd).

(** Truthiness of an optional string, and the value of [a || b]. *)
Definition truthy (s : option string) : bool :=
  match s with
  | Some s => negb (String.eqb s "")
  | None => false
  end.

Definition js_or (a b : option string) : option string :=
  if truthy a then a else b.

(** String conversion in a concatenation. *)
Definition js_string (s : option string) : string :=
  match s with
  | Some s => s
  | None => "undefined"
  end.

(** [s'] is [s] force-closed: the same span, with an end time, which is
    the one [s] had if [s] was closed already. *)
Definition closed_version (s s' : TraceSpan) : Prop :=
  name s' = name s /\ spanId s' = spanId s /\
  parentSpanId s' = parentSpanId s /\ kind s' = kind s /\
  startTime s' = startTime s /\
  isClosed s' = true /\
  (isClosed s = true -> endTime s' = endTime s).

(** [s'] is [s] up to its labels. *)
Definition relabelled (s s' : TraceSpan) : Prop :=
  name s' = name s /\ spanId s' = spanId s /\
  parentSpanId s' = parentSpanId s /\ kind s' = kind s /\
  startTime s' = startTime s /\ endTime s' = endTime s.

Inductive Level : Type := LError | LWarn | LInfo | LDebug.

(** A call on the logger: the level, the message and the numbers passed
    after it. *)
Record LogLine : Type := mkLogLine {
  level : Level;
  message : string;
  extra : list nat
}.

Section Clock.

(** [clock n] is the text of [(new Date()).toISOString()] at the [n]-th
    reading of the wall clock. *)
Variable clock : nat -> string.

(** The loop of [writeSpan]: every span that is still open is closed, each
    at the time the clock shows when the loop reaches it. [reads] counts
    the clock readings so far. [closed_test] is the test the writer
    applies to a span. *)
Fixpoint close_open_spans (closed_test : TraceSpan -> bool)
    (spans : list TraceSpan) (reads : nat) : list TraceSpan * nat :=
  match spans with
  | [] => ([], reads)
  | s :: rest =>
      if closed_test s then
        let '(rest', n) := close_open_spans closed_test rest reads in
        (s :: rest', n)
      else
        let '(rest', n) := close_open_spans closed_test rest (S reads) in
        (close (clock reads) s :: rest', n)
  end.

End Clock.

End TraceModel.

(** ** Configuration read by the writers *)

Module WriterConfig.

Record Config : Type := mkConfig {
  projectId : option string;
  bufferSize : Z;
  publishImmediately : bool;
  hostname : option string;
  instanceId : option string;
  gae_module_name : option string;
  gae_module_version : option string;
  gae_minor_version : option string
}.

Definition set_projectId (project : string) (c : Config) : Config :=
  mkConfig (Some project) (bufferSize c) (publishImmediately c) (hostname c)
    (instanceId c) (gae_module_name c) (gae_module_version c)
    (gae_minor_version c).

(** The answer of the metadata service to a project-number lookup. *)
Inductive Lookup : Type :=
| LookupError (err : string)
| LookupProject (project : string).

End WriterConfig.

(** ** The writer of lib/trace-writer.js *)

Module TraceWriter.

Import TraceModel WriterConfig.

(** The writer and what it has handed to its collaborators: [log] is the
    sequence of calls on [logger_], [immediates] the callbacks given to
    [setImmediate] and not yet run (each is [flushBuffer_(project)] for
    the project listed), [published] the requests passed to
    [service.patchTraces], [clock_reads] the number of clock readings. *)
Record Writer : Type := mkWriter {
  config_ : Config;
  buffer_ : list Trace;
  service : bool;
  log : list LogLine;
  immediates : list string;
  published : list (string * list Trace);
  clock_reads : nat
}.

Definition logger (l : Level) (msg : string) (args : list nat) (w : Writer)
    : Writer :=
  mkWriter (config_ w) (buffer_ w) (service w)
    (log w ++ [mkLogLine l msg args]) (immediates w) (published w)
    (clock_reads w).

Definition set_config (c : Config) (w : Writer) : Writer :=
  mkWriter c (buffer_ w) (service w) (log w) (immediates w) (published w)
    (clock_reads w).

Definition set_buffer (b : list Trace) (w : Writer) : Writer :=
  mkWriter (config_ w) b (service w) (log w) (immediates w) (published w)
    (clock_reads w).

Definition set_clock_reads (n : nat) (w : Writer) : Writer :=
  mkWriter (config_ w) (buffer_ w) (service w) (log w) (immediates w)
    (published w) n.

Definition setImmediate_flush (project : string) (w : Writer) : Writer :=
  mkWriter (config_ w) (buffer_ w) (service w) (log w)
    (immediates w ++ [project]) (published w) (clock_reads w).

(** [getProjectNumber(callback)]: the arguments the callback receives
    (an error, or the project) and the writer as the callback finds it.
    [metadata] is what the metadata service answers; it is asked only
    when the configuration holds no project. *)
Definition getProjectNumber (metadata : Lookup) (w : Writer)
    : Lookup * Writer :=
  if truthy (WriterConfig.projectId (config_ w)) then
    (LookupProject (js_string (WriterConfig.projectId (config_ w))), w)
  else
    match metadata with
    | LookupError err => (LookupError err, w)
    | LookupProject project =>
        let w1 :=
          logger LInfo ("Acquired ProjectId from metadata: " ++ project) [] w in
        (LookupProject project, set_config (WriterConfig.set_projectId project (config_ w1)) w1)
    end.

Definition set_project_id (project : string) (t : Trace) : Trace :=
  mkTrace (traceId t) (spans t) (Some project) (TraceModel.projectId t).

Definition queueTrace_ (trace : Trace) (metadata : Lookup) (w : Writer)
    : Writer :=
  let '(res, w0) := getProjectNumber metadata w in
  match res with
  | LookupError err => logger LInfo "No project number, dropping trace." [] w0
  | LookupProject project =>
      let trace := set_project_id project trace in
      let w1 := set_buffer (buffer_ w0 ++ [trace]) w0 in
      let w2 :=
        logger LDebug "queued trace. new size:" [length (buffer_ w1)] w1 in
      if (bufferSize (config_ w2) <=? Z.of_nat (length (buffer_ w2)))%Z then
        setImmediate_flush project
          (logger LInfo "Flushing: performing periodic flush" [] w2)
      else w2
  end.

(** [flushBuffer_(projectId)], with [publish_] inlined up to the call of
    [patchTraces]. *)
Definition flushBuffer_ (project : string) (w : Writer) : Writer :=
  if (length (buffer_ w) =? 0)%nat then w
  else
    mkWriter (config_ w) [] true (log w) (immediates w)
      (published w ++ [(project, buffer_ w)]) (clock_reads w).

Section Labels.

(** The label keys of ./trace-labels.js and the version in package.json
    are constants of files that are not among the sources. *)
Variables GCE_HOSTNAME GCE_INSTANCE_ID GAE_MODULE_NAME GAE_MODULE_VERSION
  GAE_VERSION AGENT_DATA pjson_version : string.

Variable clock : nat -> string.

Definition set_spans (spans : list TraceSpan) (sd : SpanData) : SpanData :=
  mkSpanData
    (mkTrace (traceId (trace sd)) spans (project_id (trace sd))
       (TraceModel.projectId (trace sd)))
    (span sd).

(** The labels [writeSpan] derives from the configuration. *)
Definition label_span (c : Config) (sd : SpanData) : SpanData :=
  let sd :=
    if truthy (hostname c)
    then addLabel GCE_HOSTNAME (js_string (hostname c)) sd else sd in
  let sd :=
    if truthy (instanceId c)
    then addLabel GCE_INSTANCE_ID (js_string (instanceId c)) sd else sd in
  let moduleName := js_or (gae_module_name c) (hostname c) in
  let sd :=
    if truthy moduleName
    then addLabel GAE_MODULE_NAME (js_string moduleName) sd else sd in
  let sd :=
    if truthy (gae_module_version c) then
      let sd :=
        addLabel GAE_MODULE_VERSION (js_string (gae_module_version c)) sd in
      if truthy (gae_minor_version c) then
        let versionLabel := "" in
        let versionLabel :=
          if negb (bool_decide (moduleName = Some "default"))
          then js_string moduleName ++ ":" else versionLabel in
        let versionLabel :=
          versionLabel ++ js_string (gae_module_version c) ++ "."
            ++ js_string (gae_minor_version c) in
        addLabel GAE_VERSION versionLabel sd
      else sd
    else sd in
  addLabel AGENT_DATA ("node " ++ pjson_version) sd.

(** The span data as [writeSpan] passes its trace to [queueTrace_], and
    the writer at that point. *)
Definition prepare (spanData : SpanData) (w : Writer) : SpanData * Writer :=
  let '(spans', n) :=
    close_open_spans clock isClosed (spans (trace spanData)) (clock_reads w) in
  (label_span (config_ w) (set_spans spans' spanData), set_clock_reads n w).

Definition writeSpan (spanData : SpanData) (metadata : Lookup) (w : Writer)
    : Writer :=
  let '(spanData', w') := prepare spanData w in
  queueTrace_ (trace spanData') metadata w'.

End Labels.

End TraceWriter.

(** ** The older writer, which PATCHes JSON *)

Module TraceWriterHttp.

Import TraceModel WriterConfig.

(** As above; [published] lists the requests passed to [request_], each
    with the project of its URI and the traces of its body. *)
Record Writer : Type := mkWriter {
  config_ : Config;
  buffer_ : list Trace;
  log : list LogLine;
  immediates : list string;
  published : list (string * list Trace);
  clock_reads : nat
}.

Definition logger (l : Level) (msg : string) (args : list nat) (w : Writer)
    : Writer :=
  mkWriter (config_ w) (buffer_ w) (log w ++ [mkLogLine l msg args])
    (immediates w) (published w) (clock_reads w).

Definition set_config (c : Config) (w : Writer) : Writer :=
  mkWriter c (buffer_ w) (log w) (immediates w) (published w) (clock_reads w).

Definition set_buffer (b : list Trace) (w : Writer) : Writer :=
  mkWriter (config_ w) b (log w) (immediates w) (published w) (clock_reads w).

Definition set_clock_reads (n : nat) (w : Writer) : Writer :=
  mkWriter (config_ w) (buffer_ w) (log w) (immediates w) (published w) n.

Definition setImmediate_flush (project : string) (w : Writer) : Writer :=
  mkWriter (config_ w) (buffer_ w) (log w) (immediates w ++ [project])
    (published w) (clock_reads w).

Definition getProjectNumber (metadata : Lookup) (w : Writer)
    : Lookup * Writer :=
  if truthy (WriterConfig.projectId (config_ w)) then
    (LookupProject (js_string (WriterConfig.projectId (config_ w))), w)
  else
    match metadata with
    | LookupError err => (LookupError err, w)
    | LookupProject project =>
        (LookupProject project, set_config (WriterConfig.set_projectId project (config_ w)) w)
    end.

Definition set_projectId (project : string) (t : Trace) : Trace :=
  mkTrace (traceId t) (spans t) (project_id t) (Some project).

Definition queueTrace_ (trace : Trace) (metadata : Lookup) (w : Writer)
    : Writer :=
  let '(res, w0) := getProjectNumber metadata w in
  match res with
  | LookupError err => w0
  | LookupProject project =>
      let trace := set_projectId project trace in
      let w1 :=
        if (Z.of_nat (length (buffer_ w0)) <=? bufferSize (config_ w0))%Z then
          let w1 := set_buffer (buffer_ w0 ++ [trace]) w0 in
          logger LInfo "queued trace. new size:" [length (buffer_ w1)] w1
        else w0 in
      if (bufferSize (config_ w1) <=? Z.of_nat (length (buffer_ w1)))%Z
         && publishImmediately (config_ w1)
      then setImmediate_flush project w1
      else w1
  end.

Definition flushBuffer_ (project : string) (w : Writer) : Writer :=
  if (length (buffer_ w) =? 0)%nat then w
  else
    mkWriter (config_ w) [] (log w) (immediates w)
      (published w ++ [(project, buffer_ w)]) (clock_reads w).

Section Clock.

Variable clock : nat -> string.

(** The trace as [writeSpan] passes it to [queueTrace_]. *)
Definition prepare (spanData : SpanData) (w : Writer) : Trace * Writer :=
  let '(spans', n) :=
    close_open_spans clock
      (fun s => negb (String.eqb (endTime s) ""))
      (spans (trace spanData)) (clock_reads w) in
  (mkTrace (traceId (trace spanData)) spans'
     (project_id (trace spanData)) (TraceModel.projectId (trace spanData)),
   set_clock_reads n w).

Definition writeSpan (spanData : SpanData) (metadata : Lookup) (w : Writer)
    : Writer :=
  let '(trace', w') := prepare spanData w in
  queueTrace_ trace' metadata w'.

End Clock.

End TraceWriterHttp.

(** ** Observers and histories used to state the properties *)

Module Probes.

Import AsyncHooksCLS.

Section WithContext.

Variables (Ctx Exn : Type).
Variable defaultContext : Ctx.

(** The store in which [runWithNewContext] enters [fn]: the executing
    unit is bound to a fresh Reference that holds the default. *)
Definition fresh_scope (st : Store Ctx) (eid : AsyncId) : Store Ctx :=
  ctx_write (new_ref st defaultContext).2 eid
    (Some (new_ref st defaultContext).1).

(** A callback that reports the binding of the unit it runs on. *)
Definition binding_probe : Func Ctx Exn (option Ref) :=
  mkFunc (fun eid (st : Store Ctx) => (Return (ctx_read st eid), st)) false 0.

(** A callback that reports what [getContext()] returns inside it. *)
Definition context_probe : Func Ctx Exn Ctx :=
  mkFunc (fun eid (st : Store Ctx) =>
            (Return (getContext defaultContext eid st), st)) false 0.

(** A callback that calls [setContext(v)]. *)
Definition context_setter (v : Ctx) : Func Ctx Exn unit :=
  mkFunc (fun eid (st : Store Ctx) => (Return tt, setContext v eid st)) false 0.

(** A callback that calls another one and returns its result. *)
Definition caller {T} (f : Func Ctx Exn T) : Func Ctx Exn T :=
  mkFunc (fun eid (st : Store Ctx) => call f eid st) false 0.

(** A later history of a callable [w]: before each invocation the rest of
    the program changes the store in some way, then some unit invokes
    [w]. The outcomes are collected in order. *)
Fixpoint invoke_each {T} (w : Func Ctx Exn T)
    (history : list ((Store Ctx -> Store Ctx) * AsyncId)) (st : Store Ctx)
    : list (Outcome Exn T) * Store Ctx :=
  match history with
  | [] => ([], st)
  | (world, eid) :: rest =>
      let '(r, st1) := call w eid (world st) in
      let '(rs, st2) := invoke_each w rest st1 in
      (r :: rs, st2)
  end.

(** Nested blocks of [setContext] and [runWithNewContext] calls, with
    exceptions: the shape of code that a caller runs inside
    [runWithNewContext]. *)
Inductive Block : Type :=
| BSkip
| BSetContext (v : Ctx)
| BThrow (e : Exn)
| BSeq (b1 b2 : Block)
| BRunWithNewContext (body : Block).

Fixpoint exec (b : Block) (eid : AsyncId) (st : Store Ctx)
    : Outcome Exn unit * Store Ctx :=
  match b with
  | BSkip => (Return tt, st)
  | BSetContext v => (Return tt, setContext v eid st)
  | BThrow e => (Throw e, st)
  | BSeq b1 b2 =>
      match exec b1 eid st with
      | (Return _, st1) => exec b2 eid st1
      | (Throw e, st1) => (Throw e, st1)
      end
  | BRunWithNewContext body =>
      runWithNewContext defaultContext (mkFunc (exec body) false 0) eid st
  end.

(** No binding dangles: every Reference in [contexts] was allocated. *)
Definition well_formed (st : Store Ctx) : Prop :=
  forall id r, ctx_read st id = Some r -> (r < length (refs st))%nat.

End WithContext.

Arguments BSkip {Ctx Exn}.
Arguments BSetContext {Ctx Exn} _.
Arguments BThrow {Ctx Exn} _.
Arguments BSeq {Ctx Exn} _ _.
Arguments BRunWithNewContext {Ctx Exn} _.
Arguments exec {Ctx Exn} _ _ _ _.
Arguments well_formed {Ctx} _.
Arguments fresh_scope {Ctx} _ _ _.
Arguments binding_probe {Ctx Exn}.
Arguments context_probe {Ctx Exn} _.
Arguments context_setter {Ctx Exn} _.
Arguments caller {Ctx Exn T} _.
Arguments invoke_each {Ctx Exn T} _ _ _.

(** Sample stores over string contexts with default ["default"]. In
    [one_bound_unit] unit 2 is bound to a Reference holding ["B"] and no
    other unit is bound; in [two_bound_units] unit 1 is bound to a
    Reference holding ["A"] and unit 2 to one holding ["B"]. *)
Definition one_bound_unit : Store string :=
  mkStore {[ 2%nat := Some 0%nat ]} ["B"] true true.

Definition two_bound_units : Store string :=
  mkStore {[ 1%nat := Some 0%nat; 2%nat := Some 1%nat ]} ["A"; "B"] true true.

End Probes.

(** ** Sample inputs for the writers *)

Module Samples.

Import TraceModel WriterConfig.

(** A configuration without a project, with room for 1000 traces. *)
Definition no_project : Config :=
  mkConfig None 1000 false None None None None None.

Definition with_project : Config :=
  mkConfig (Some "my-project") 1000 false (Some "host-1") None None None None.

(** The project configured, with a buffer size of 1. *)
Definition small_buffer : Config :=
  mkConfig (Some "my-project") 1 false None None None None None.

(** A trace whose root span is closed while its child is still open. *)
Definition root_span : TraceSpan :=
  mkTraceSpan "root" 1 0 "RPC_SERVER" "2017-01-01T00:00:00.000Z"
    "2017-01-01T00:00:01.000Z" ∅.

Definition open_child : TraceSpan :=
  mkTraceSpan "child" 2 1 "RPC_CLIENT" "2017-01-01T00:00:00.500Z" "" ∅.

Definition sample_trace : Trace :=
  mkTrace "ffeeddccbbaa99887766554433221100" [root_span; open_child] None None.

Definition sample_spanData : SpanData := mkSpanData sample_trace 0.

Definition sample_clock (n : nat) : string := "2017-01-01T00:00:02.000Z".

Definition grpc_writer (c : Config) : TraceWriter.Writer :=
  TraceWriter.mkWriter c [] false [] [] [] 0.

Definition http_writer (c : Config) : TraceWriterHttp.Writer :=
  TraceWriterHttp.mkWriter c [] [] [] [] 0.

End Samples.

(** ** Patching event emitters *)

Module EmitterPatch.

Import AsyncHooksCLS.

Section WithContext.

Variables (Ctx Exn : Type).

(** [Res] is whatever a registration method does and returns. A method of
    an emitter takes the event name and the listener and runs on the unit
    that calls it, in the store of that moment. An emitter is the table
    of its methods, by name. *)
Variable Res : Type.

Definition Method : Type :=
  string -> Func Ctx Exn unit -> AsyncId -> Store Ctx -> Res.

(** A list of well-known EventEmitter methods that add event listeners. *)
Definition EVENT_EMITTER_METHODS : list string :=
  ["addListener"; "on"; "once"; "prependListener"; "prependOnceListener"].

(** The function [shimmer.wrap] installs in place of [oldMethod]. *)
Definition propagating (oldMethod : Method) : Method :=
  fun event cb eid st => oldMethod event (bindWithCurrentContext cb eid st) eid st.

(** One round of the [forEach]: [if (ee[method]) shimmer.wrap(...)]. *)
Definition patch_method (ee : gmap string Method) (method : string)
    : gmap string Method :=
  match ee !! method with
  | Some oldMethod => <[method := propagating oldMethod]> ee
  | None => ee
  end.

Definition patchEmitterToPropagateContext (ee : gmap string Method)
    : gmap string Method :=
  foldl patch_method ee EVENT_EMITTER_METHODS.

End WithContext.

Arguments Method _ _ _ : clear implicits.
Arguments propagating {Ctx Exn Res} _ _ _ _ _.
Arguments patch_method {Ctx Exn Res} _ _.
Arguments patchEmitterToPropagateContext {Ctx Exn Res} _.

End EmitterPatch.

(** ** Runs of hook events *)

Module HookRuns.

Import AsyncHooksCLS.

(** The events the runtime reports, each with the unit executing when it
    is reported, delivered in order. *)
Definition dispatch_all {Ctx} (evs : list (Event * AsyncId)) (st : Store Ctx)
    : Store Ctx :=
  foldl (fun st ev => dispatch ev.1 ev.2 st) st evs.

(** The units created and not yet destroyed, among [known] and those the
    events create. *)
Definition live_after (known : gset AsyncId) (evs : list (Event * AsyncId))
    : gset AsyncId :=
  foldl (fun live ev =>
           match ev.1 with
           | EvInit id _ _ => {[id]} ∪ live
           | EvDestroy id => live ∖ {[id]}
           end) known evs.

End HookRuns.

(** ** Runs of policy decisions *)

Module PolicyRuns.

Import TracingPolicy.

Section Filters.

Variable RegExp : Type.
Variable String_match : string -> string + RegExp -> bool.

(** The policy after it has decided on each of [reqs], in order. *)
Definition policy_after (reqs : list TraceOptions) (p : TracePolicy RegExp)
    : TracePolicy RegExp :=
  foldl (fun p options =>
           (TracePolicy_shouldTrace RegExp String_match options p).2) p reqs.

(** Whether a deny entry matches a URL, as [URLFilter] tests it. *)
Definition candidate_matches (url : string) (candidate : string + RegExp)
    : Prop :=
  candidate = inl url \/ String_match url candidate = true.

End Filters.

End PolicyRuns.

(** ** Runs of the writers *)

Module WriterRuns.

Import TraceModel WriterConfig.

(** What happens to a writer, one step at a time: a trace reaches
    [queueTrace_] (and the metadata service would answer [metadata] if
    asked), a flush runs for a project, or the oldest callback given to
    [setImmediate] runs. *)
Inductive Step : Type :=
| Queue (trace : Trace) (metadata : Lookup)
| Flush (project : string)
| RunImmediate.

Definition run_immediate (w : TraceWriter.Writer) : TraceWriter.Writer :=
  match TraceWriter.immediates w with
  | [] => w
  | project :: rest =>
      TraceWriter.flushBuffer_ project
        (TraceWriter.mkWriter (TraceWriter.config_ w) (TraceWriter.buffer_ w)
           (TraceWriter.service w) (TraceWriter.log w) rest
           (TraceWriter.published w) (TraceWriter.clock_reads w))
  end.

Definition step (s : Step) (w : TraceWriter.Writer) : TraceWriter.Writer :=
  match s with
  | Queue trace metadata => TraceWriter.queueTrace_ trace metadata w
  | Flush project => TraceWriter.flushBuffer_ project w
  | RunImmediate => run_immediate w
  end.

Definition run (steps : list Step) (w : TraceWriter.Writer)
    : TraceWriter.Writer :=
  foldl (fun w s => step s w) w steps.

(** The traces that reached [queueTrace_] during the steps, in order. *)
Definition queued (steps : list Step) : list Trace :=
  omap (fun s => match s with Queue trace _ => Some trace | _ => None end)
    steps.

(** The traces handed to the transport so far, batch after batch. *)
Definition exported (w : TraceWriter.Writer) : list Trace :=
  concat (map snd (TraceWriter.published w)).

(** A burst: the traces reach [queueTrace_] one after the other, nothing
    else running in between. *)
Definition queue_all (traces : list Trace) (metadata : Lookup)
    (w : TraceWriter.Writer) : TraceWriter.Writer :=
  foldl (fun w t => TraceWriter.queueTrace_ t metadata w) w traces.

(** The same for the older writer. *)
Definition step_http (s : Step) (w : TraceWriterHttp.Writer)
    : TraceWriterHttp.Writer :=
  match s with
  | Queue trace metadata => TraceWriterHttp.queueTrace_ trace metadata w
  | Flush project => TraceWriterHttp.flushBuffer_ project w
  | RunImmediate =>
      match TraceWriterHttp.immediates w with
      | [] => w
      | project :: rest =>
          TraceWriterHttp.flushBuffer_ project
            (TraceWriterHttp.mkWriter (TraceWriterHttp.config_ w)
               (TraceWriterHttp.buffer_ w) (TraceWriterHttp.log w) rest
               (TraceWriterHttp.published w) (TraceWriterHttp.clock_reads w))
      end
  end.

Definition run_http (steps : list Step) (w : TraceWriterHttp.Writer)
    : TraceWriterHttp.Writer :=
  foldl (fun w s => step_http s w) w steps.

Definition queue_all_http (traces : list Trace) (metadata : Lookup)
    (w : TraceWriterHttp.Writer) : TraceWriterHttp.Writer :=
  foldl (fun w t => TraceWriterHttp.queueTrace_ t metadata w) w traces.

End WriterRuns.

(** ** The module's entry point (index.js) *)

Module AgentIndex.

Import TraceModel.

(** A value of [config.projectId] that is not [undefined]: a string, or
    something else, of which only the text it converts to and its
    truthiness matter here. *)
Inductive ProjectIdValue : Type :=
| PidString (s : string)
| PidOther (text : string) (is_truthy : bool).

Definition pid_truthy (v : option ProjectIdValue) : bool :=
  match v with
  | None => false
  | Some (PidString s) => negb (String.eqb s "")
  | Some (PidOther _ b) => b
  end.

Definition pid_text (v : option ProjectIdValue) : string :=
  match v with
  | None => "undefined"
  | Some (PidString s) => s
  | Some (PidOther text _) => text
  end.

(** The fields of the configuration that index.js reads. *)
Record AgentConfig : Type := mkAgentConfig {
  enabled : bool;
  forceNewAgent_ : bool;
  logLevel : Z;
  projectId : option ProjectIdValue;
  onUncaughtException : string
}.

(** The object passed to [start]: each field is there or not. *)
Record ProjectConfig : Type := mkProjectConfig {
  given_enabled : option bool;
  given_forceNewAgent_ : option bool;
  given_logLevel : option Z;
  given_projectId : option ProjectIdValue;
  given_onUncaughtException : option string
}.

(** [util._extend(config, projectConfig)]. *)
Definition extend (config : AgentConfig) (projectConfig : ProjectConfig)
    : AgentConfig :=
  mkAgentConfig
    (default (enabled config) (given_enabled projectConfig))
    (default (forceNewAgent_ config) (given_forceNewAgent_ projectConfig))
    (default (logLevel config) (given_logLevel projectConfig))
    (match given_projectId projectConfig with
     | Some v => Some v
     | None => projectId config
     end)
    (default (onUncaughtException config)
       (given_onUncaughtException projectConfig)).

Definition set_logLevel (n : Z) (c : AgentConfig) : AgentConfig :=
  mkAgentConfig (enabled c) (forceNewAgent_ c) n (projectId c)
    (onUncaughtException c).

Definition set_projectId (v : ProjectIdValue) (c : AgentConfig) : AgentConfig :=
  mkAgentConfig (enabled c) (forceNewAgent_ c) (logLevel c) (Some v)
    (onUncaughtException c).

Definition onUncaughtExceptionValues : list string :=
  ["ignore"; "flush"; "flushAndExit"].

(** A call on a logger: the index in [LEVELS] the logger was created
    with, the method called, the message and the further arguments. *)
Record LogCall : Type := mkLogCall {
  logger_level : Z;
  method : Level;
  text : string;
  args : list string
}.

Section Host.

(** What index.js takes from elsewhere: the package name of a loaded file
    ([packageNameFromPath] of src/util.js, a string or [null]), the files
    in [require.cache] when the module loads, the defaults of config.js,
    the environment, [parseInt(s, 10)] ([None] for [NaN]),
    [JSON.stringify] on arrays of strings, the number of logger levels,
    whether the running Node satisfies >=0.12, and the real agent of
    src/trace-agent.js: its type, [get(config, logger)] and
    [isRunning()]. *)
Variable packageNameFromPath : string -> option string.
Variable filesLoadedBeforeTrace : list string.
Variable defaults : AgentConfig.
Variable env : gmap string string.
Variable parseInt : string -> option Z.
Variable JSON_stringify : list string -> string.
Variable LEVELS_length : Z.
Variable node_supported : bool.
Variable TraceAgent : Type.
Variable TraceAgent_get : AgentConfig -> Z -> TraceAgent.
Variable isRunning : TraceAgent -> bool.

(** One round of the loop that fills [modulesLoadedBeforeTrace]. *)
Definition note_module (modules : list string) (file : string) : list string :=
  match packageNameFromPath file with
  | Some moduleName =>
      if negb (String.eqb moduleName "")
         && negb (String.eqb moduleName "@google/cloud-trace")
         && (TracingPolicy.indexOf modules moduleName =? -1)%Z
      then modules ++ [moduleName]
      else modules
  | None => modules
  end.

Definition modulesLoadedBeforeTrace : list string :=
  foldl note_module [] filesLoadedBeforeTrace.

(** [initConfig(projectConfig)]: the configuration and what it writes
    with [console.error]. *)
Definition initConfig (projectConfig : ProjectConfig)
    : AgentConfig * list string :=
  let config := extend defaults projectConfig in
  let '(config, warnings) :=
    match env !! "GCLOUD_TRACE_LOGLEVEL" with
    | Some value =>
        match parseInt value with
        | Some envLogLevel => (set_logLevel envLogLevel config, [])
        | None =>
            (config,
             ["Warning: Ignoring env var GCLOUD_TRACE_LOGLEVEL as it "
              +:+ "contains an non-integer log level: " +:+ value])
        end
    | None => (config, [])
    end in
  let config :=
    match env !! "GCLOUD_PROJECT" with
    | Some project => set_projectId (PidString project) config
    | None => config
    end in
  (config, warnings).

(** The public agent's state: the current agent ([None] is the phantom
    agent), the calls made on loggers, the lines written to the console,
    the configurations for which a metadata lookup was begun, and the
    agents that were told to stop. *)
Record State : Type := mkState {
  agent : option TraceAgent;
  logs : list LogCall;
  console : list string;
  lookups : list AgentConfig;
  stopped : list TraceAgent
}.

Definition log_call (level : Z) (m : Level) (msg : string)
    (more : list string) (st : State) : State :=
  mkState (agent st) (logs st ++ [mkLogCall level m msg more]) (console st)
    (lookups st) (stopped st).

Definition isActive (st : State) : bool :=
  match agent st with
  | None => false
  | Some a => isRunning a
  end.

(** The index of the logger's level: [config.logLevel] brought into
    range. *)
Definition clamp_logLevel (logLevel : Z) : Z :=
  if (logLevel <? 0)%Z then 0%Z
  else if (LEVELS_length <=? logLevel)%Z then (LEVELS_length - 1)%Z
  else logLevel.

Definition start (projectConfig : ProjectConfig) (st : State)
    : Outcome string unit * State :=
  let '(config, warnings) := initConfig projectConfig in
  let st :=
    mkState (agent st) (logs st) (console st ++ warnings) (lookups st)
      (stopped st) in
  if isActive st && negb (forceNewAgent_ config) then
    (Throw "Cannot call start on an already started agent.", st)
  else if negb (enabled config) then (Return tt, st)
  else
    let level := clamp_logLevel (logLevel config) in
    if negb node_supported then
      (Return tt,
       log_call level LError
         "Tracing is only supported on Node versions >=0.12" [] st)
    else
      let st :=
        if pid_truthy (projectId config)
        then log_call level LInfo
               ("Locally provided ProjectId: " +:+ pid_text (projectId config))
               [] st
        else st in
      if (TracingPolicy.indexOf onUncaughtExceptionValues
            (onUncaughtException config) =? -1)%Z
      then
        (Throw "Invalid value for onUncaughtException configuration.",
         log_call level LError
           "The value of onUncaughtException should be one of "
           onUncaughtExceptionValues st)
      else
        let st :=
          if (0 <? length modulesLoadedBeforeTrace)%nat
          then log_call level LWarn
                 ("Tracing might not work as the following modules "
                  +:+ "were loaded before the trace agent was initialized: "
                  +:+ JSON_stringify modulesLoadedBeforeTrace) [] st
          else st in
        let install (st : State) : State :=
          mkState (Some (TraceAgent_get config level)) (logs st) (console st)
            (lookups st) (stopped st) in
        match projectId config with
        | None =>
            (Return tt,
             install
               (mkState (agent st) (logs st) (console st)
                  (lookups st ++ [config]) (stopped st)))
        | Some (PidString _) => (Return tt, install st)
        | Some (PidOther _ _) =>
            (Return tt,
             log_call level LError
               ("config.projectId, if provided, must be a string. "
                +:+ "Disabling trace agent.") [] st)
        end.

Definition stop (st : State) : State :=
  if isActive st then
    match agent st with
    | Some a =>
        mkState None (logs st) (console st) (lookups st) (stopped st ++ [a])
    | None => st
    end
  else st.

Definition get (st : State) : Outcome string unit :=
  if isActive st then Return tt
  else Throw "The agent must be initialized by calling start.".

(** The callback that [start] gives to the metadata lookup, for the
    configuration [config] and the logger level [level] of that call of
    [start]: [err] is the text of the error, if any, [response] the status
    code of the response, if any. It returns the configuration as it
    leaves it. *)
Definition metadata_callback (config : AgentConfig) (level : Z)
    (err : option string) (response : option Z) (project : string)
    (st : State) : AgentConfig * State :=
  let err :=
    match response with
    | Some statusCode =>
        if negb (statusCode =? 200)%Z then
          if (statusCode =? 503)%Z then
            Some ("Error: Metadata service responded with a 503 status "
                  +:+ "code. This may be due to a temporary server error; "
                  +:+ "please try again later.")
          else
            Some ("Error: Metadata service responded with the following "
                  +:+ "status code: " +:+ pretty statusCode)
        else err
    | None => err
    end in
  match err with
  | Some e =>
      (config,
       stop
         (log_call level LError
            ("Unable to acquire the project number from metadata "
             +:+ "service. Please provide a valid project number as an env. "
             +:+ "variable, or through config.projectId passed to start(). "
             +:+ "Disabling trace agent. " +:+ e) [] st))
  | None => (set_projectId (PidString project) config, st)
  end.

End Host.

End AgentIndex.

(** ** Construction of the writers and their periodic flush *)

Module WriterTimers.

Import TraceModel WriterConfig WriterRuns.

Section Delay.

(** [config_.flushDelaySeconds]. *)
Variable flushDelaySeconds : Q.

(** A writer of lib/trace-writer.js with the timers armed by
    [setTimeout] (each will call [scheduleFlush_] for the project after
    the delay, in milliseconds) and whether [auth] has been set. *)
Record Scheduled : Type := mkScheduled {
  writer : TraceWriter.Writer;
  timers : list (string * Q);
  auth : bool
}.

Definition scheduleFlush_ (project : string) (s : Scheduled) : Scheduled :=
  let w :=
    TraceWriter.logger LInfo "Flushing: performing periodic flush" []
      (writer s) in
  mkScheduled (TraceWriter.flushBuffer_ project w)
    (timers s ++ [(project, (flushDelaySeconds * 1000)%Q)]) (auth s).

(** [new TraceWriter(logger, config)]: [metadata] is the answer to the
    project lookup, if one is made, and [auth_error] the error of
    [getApplicationDefaultAuth], if any (the error passed to the logger
    after the message is not recorded). *)
Definition TraceWriter_new (config : Config) (metadata : Lookup)
    (auth_error : option string) : Scheduled :=
  let w := TraceWriter.mkWriter config [] false [] [] [] 0 in
  let '(res, w) := TraceWriter.getProjectNumber metadata w in
  let s := mkScheduled w [] false in
  let s :=
    match res with
    | LookupError err => s
    | LookupProject project => scheduleFlush_ project s
    end in
  match auth_error with
  | Some err =>
      mkScheduled (TraceWriter.logger LWarn "Failed to authenticate" []
                     (writer s)) (timers s) (auth s)
  | None => mkScheduled (writer s) (timers s) true
  end.

(** What happens next: the oldest timer fires, or the writer takes a
    step. *)
Inductive Tick : Type :=
| Fire
| Work (s : Step).

Definition tick (t : Tick) (s : Scheduled) : Scheduled :=
  match t with
  | Fire =>
      match timers s with
      | [] => s
      | (project, _) :: rest =>
          scheduleFlush_ project (mkScheduled (writer s) rest (auth s))
      end
  | Work st => mkScheduled (step st (writer s)) (timers s) (auth s)
  end.

Definition run_ticks (ts : list Tick) (s : Scheduled) : Scheduled :=
  foldl (fun s t => tick t s) s ts.

(** The same for the older writer, whose constructor only looks up the
    project and whose [scheduleFlush_] does not log. *)
Record ScheduledHttp : Type := mkScheduledHttp {
  writer_http : TraceWriterHttp.Writer;
  timers_http : list (string * Q)
}.

Definition scheduleFlush_http (project : string) (s : ScheduledHttp)
    : ScheduledHttp :=
  mkScheduledHttp (TraceWriterHttp.flushBuffer_ project (writer_http s))
    (timers_http s ++ [(project, (flushDelaySeconds * 1000)%Q)]).

Definition TraceWriterHttp_new (config : Config) (metadata : Lookup)
    : ScheduledHttp :=
  let w := TraceWriterHttp.mkWriter config [] [] [] [] 0 in
  let '(res, w) := TraceWriterHttp.getProjectNumber metadata w in
  let s := mkScheduledHttp w [] in
  match res with
  | LookupError err => s
  | LookupProject project => scheduleFlush_http project s
  end.

Definition tick_http (t : Tick) (s : ScheduledHttp) : ScheduledHttp :=
  match t with
  | Fire =>
      match timers_http s with
      | [] => s
      | (project, _) :: rest =>
          scheduleFlush_http project (mkScheduledHttp (writer_http s) rest)
      end
  | Work st => mkScheduledHttp (step_http st (writer_http s)) (timers_http s)
  end.

Definition run_ticks_http (ts : list Tick) (s : ScheduledHttp)
    : ScheduledHttp :=
  foldl (fun s t => tick_http t s) s ts.

(** The project a writer knows right after construction, if any. *)
Definition project_at_construction (config : Config) (metadata : Lookup)
    : option string :=
  if truthy (WriterConfig.projectId config)
  then Some (js_string (WriterConfig.projectId config))
  else
    match metadata with
    | LookupError _ => None
    | LookupProject project => Some project
    end.

End Delay.

End WriterTimers.

(** ** Sample inputs for the entry point *)

Module IndexSamples.

Import AgentIndex.

Definition sample_defaults : AgentConfig :=
  mkAgentConfig true false 1 None "ignore".

(** [start({projectId: 42})]. *)
Definition numeric_project : ProjectConfig :=
  mkProjectConfig None None None (Some (PidOther "42" true)) None.

(** The state when the module has just been loaded: the phantom agent. *)
Definition fresh : State unit := mkState unit None [] [] [] [].

End IndexSamples.

(** * Properties *)

(** ** Continuation-local storage *)

Module CLSProperties.

Import AsyncHooksCLS Probes.

Section WithContext.

Context {Ctx Exn : Type}.
Variable defaultContext : Ctx.

Implicit Types (st : Store Ctx) (eid id : AsyncId) (r : Ref).

Lemma ctx_read_write_eq st id v : ctx_read (ctx_write st id v) id = v.
Proof. unfold ctx_read, ctx_write; simpl. by rewrite lookup_insert_eq. Qed.

Lemma ctx_read_write_ne st id id' v :
  id <> id' -> ctx_read (ctx_write st id v) id' = ctx_read st id'.
Proof.
  intros Hne. unfold ctx_read, ctx_write; simpl. by rewrite lookup_insert_ne.
Qed.

Lemma getContext_ctx_write_eq st id v :
  getContext defaultContext id (ctx_write st id v) =
  match v with
  | Some r => ref_value defaultContext st r
  | None => defaultContext
  end.
Proof. unfold getContext. rewrite ctx_read_write_eq. by destruct v. Qed.

Lemma ref_value_new_ref st v :
  ref_value defaultContext (new_ref st v).2 (new_ref st v).1 = v.
Proof.
  unfold ref_value, new_ref; simpl.
  rewrite lookup_app_r; [|lia]. by rewrite Nat.sub_diag.
Qed.

(** C1: while the hook is enabled, a creation event for [id] with trigger
    [t] and kind [k] binds [id] to the binding of the executing unit when
    [k] is PROMISE and to the binding of [t] otherwise, so that [id] sees
    the context of that unit; a destruction event for [id] removes the
    entry of [id] from the store. *)
Theorem init_inherits_destroy_deletes st eid id t (k : string) :
  hook_enabled st = true ->
  let created := dispatch (EvInit id k t) eid st in
  let destroyed := dispatch (EvDestroy id) eid st in
  (k = "PROMISE" ->
     ctx_read created id = ctx_read st eid /\
     getContext defaultContext id created = getContext defaultContext eid st) /\
  (k <> "PROMISE" ->
     ctx_read created id = ctx_read st t /\
     getContext defaultContext id created = getContext defaultContext t st) /\
  contexts destroyed !! id = None /\
  ctx_read destroyed id = None /\
  (forall id', id' <> id ->
     ctx_read created id' = ctx_read st id' /\
     ctx_read destroyed id' = ctx_read st id').
Proof.
  intros Hen created destroyed.
  subst created destroyed. unfold dispatch. rewrite Hen.
  unfold init, destroy.
  repeat split.
  - subst k. simpl. apply ctx_read_write_eq.
  - subst k. simpl. unfold getContext at 1. by rewrite ctx_read_write_eq.
  - apply String.eqb_neq in H. rewrite H. apply ctx_read_write_eq.
  - apply String.eqb_neq in H. rewrite H.
    unfold getContext at 1. by rewrite ctx_read_write_eq.
  - simpl. apply lookup_delete_eq.
  - unfold ctx_read, ctx_delete; simpl. by rewrite lookup_delete_eq.
  - destruct (String.eqb k "PROMISE"); by rewrite ctx_read_write_ne.
  - unfold ctx_read, ctx_delete; simpl. by rewrite lookup_delete_ne.
Qed.

Lemma runWithNewContext_unfold {T} (fn : Func Ctx Exn T) eid st :
  runWithNewContext defaultContext fn eid st =
  ((call fn eid (fresh_scope defaultContext st eid)).1,
   ctx_write (call fn eid (fresh_scope defaultContext st eid)).2 eid (ctx_read st eid)).
Proof.
  unfold runWithNewContext, fresh_scope. simpl.
  by destruct (call fn eid _) as [res st2].
Qed.

Lemma getContext_fresh_scope st eid :
  getContext defaultContext eid (fresh_scope defaultContext st eid) = defaultContext.
Proof.
  unfold fresh_scope. rewrite getContext_ctx_write_eq.
  apply ref_value_new_ref.
Qed.

(** After the call [getContext()] is what it was before, as soon as [fn]
    has left the value of the old binding alone. *)
Lemma runWithNewContext_getContext {T} (fn : Func Ctx Exn T) eid st :
  let after := (runWithNewContext defaultContext fn eid st).2 in
  (ctx_read st eid = None ->
     getContext defaultContext eid after = getContext defaultContext eid st) /\
  (forall r, ctx_read st eid = Some r ->
     refs (call fn eid (fresh_scope defaultContext st eid)).2 !! r
       = refs st !! r ->
     getContext defaultContext eid after = getContext defaultContext eid st).
Proof.
  intros after. subst after. rewrite runWithNewContext_unfold. cbn [snd].
  split.
  - intros Hnone. unfold getContext. rewrite ctx_read_write_eq. by rewrite Hnone.
  - intros r Hr Hrefs. unfold getContext. rewrite ctx_read_write_eq, Hr.
    unfold ref_value. cbn [refs ctx_write]. by rewrite Hrefs.
Qed.


Lemma call_contextWrapper {T} r (fn : Func Ctx Exn T) n eid st :
  call (mkFunc (contextWrapper r fn) true n) eid st =
  ((call fn eid (ctx_write st eid (Some r))).1,
   ctx_write (call fn eid (ctx_write st eid (Some r))).2 eid (ctx_read st eid)).
Proof.
  cbn [call]. unfold contextWrapper.
  by destruct (call fn eid _) as [res st2].
Qed.

Lemma bind_bound {T} (fn : Func Ctx Exn T) eid st r :
  WRAPPED fn = false -> ctx_read st eid = Some r ->
  bindWithCurrentContext fn eid st = mkFunc (contextWrapper r fn) true (length_ fn).
Proof. intros Hw Hr. unfold bindWithCurrentContext. by rewrite Hw, Hr. Qed.

Lemma bind_wrapped {T} (fn : Func Ctx Exn T) eid st :
  WRAPPED fn = true -> bindWithCurrentContext fn eid st = fn.
Proof. intros Hw. unfold bindWithCurrentContext. by rewrite Hw. Qed.

Lemma bind_unbound {T} (fn : Func Ctx Exn T) eid st :
  ctx_read st eid = None -> bindWithCurrentContext fn eid st = fn.
Proof.
  intros Hr. unfold bindWithCurrentContext. rewrite Hr. by destruct (WRAPPED fn).
Qed.

(** Every invocation in a history of a wrapped probe reports the binding
    captured at wrap time. *)
Lemma wrapped_probe_history r
    (history : list ((Store Ctx -> Store Ctx) * AsyncId)) st :
  Forall (fun o => o = Return (Some r))
    (invoke_each (mkFunc (contextWrapper r (binding_probe (Exn := Exn)))
                    true 0) history st).1.
Proof.
  revert st.
  induction history as [|[world eid] rest IH]; intros st; cbn [invoke_each].
  - constructor.
  - rewrite call_contextWrapper.
    cbn [binding_probe call fst snd].
    specialize (IH (ctx_write (ctx_write (world st) eid (Some r)) eid
                      (ctx_read (world st) eid))).
    destruct (invoke_each _ rest _) as [rs st2]. cbn [fst] in *.
    constructor; [|exact IH].
    by rewrite ctx_read_write_eq.
Qed.

(** C3, as amended: when the wrapping unit has a binding [r] (a Reference)
    and [fn] is not yet wrapped, the callable returned by
    [bindWithCurrentContext] runs [fn], at every invocation on any unit
    and in any later store, with that unit bound to [r], so that
    [getContext()] at entry is the value [r] holds then; it passes on the
    outcome of [fn] and afterwards the invoking unit is bound as it was
    before the invocation. Through any history of invocations a probe
    wrapped this way reports [r] each time. Wrapping a callable that
    carries the marker returns it unchanged, hence wrapping the wrapper
    again, in any store and on any unit, returns the wrapper. *)
Theorem bound_callback_runs_in_captured_binding {T} (fn : Func Ctx Exn T)
    eid0 st0 r :
  ctx_read st0 eid0 = Some r ->
  WRAPPED fn = false ->
  let w := bindWithCurrentContext fn eid0 st0 in
  (forall eid st,
     let entry := ctx_write st eid (Some r) in
     ctx_read entry eid = Some r /\
     getContext defaultContext eid entry = ref_value defaultContext st r /\
     (call w eid st).1 = (call fn eid entry).1 /\
     ctx_read (call w eid st).2 eid = ctx_read st eid /\
     (forall id', id' <> eid ->
        ctx_read (call w eid st).2 id' = ctx_read (call fn eid entry).2 id')) /\
  (forall history st,
     Forall (fun o => o = Return (Some r))
       (invoke_each (bindWithCurrentContext (binding_probe (Exn := Exn))
                       eid0 st0) history st).1) /\
  (forall (g : Func Ctx Exn T) eid st,
     WRAPPED g = true -> bindWithCurrentContext g eid st = g) /\
  (forall eid st, bindWithCurrentContext w eid st = w).
Proof.
  intros Hr Hw w. subst w. rewrite (bind_bound fn eid0 st0 r Hw Hr).
  split; [|split; [|split]].
  - intros eid st entry. subst entry. rewrite call_contextWrapper.
    split; [apply ctx_read_write_eq|].
    split; [apply getContext_ctx_write_eq|].
    split; [reflexivity|].
    split; [apply ctx_read_write_eq|].
    intros id' Hne. by apply ctx_read_write_ne.
  - intros history st.
    rewrite (bind_bound binding_probe eid0 st0 r eq_refl Hr).
    apply wrapped_probe_history.
  - intros g eid st Hg. by apply bind_wrapped.
  - intros eid st. by apply bind_wrapped.
Qed.

(** A block run by a unit that has a binding leaves that binding in place
    and leaves alone every Reference below [n0], provided the binding and
    the heap's end are not below [n0]. *)
Lemma exec_frame (b : Block Ctx Exn) eid st r n0 :
  ctx_read st eid = Some r -> (n0 <= r)%nat -> (n0 <= length (refs st))%nat ->
  ctx_read (exec defaultContext b eid st).2 eid = Some r /\
  (n0 <= length (refs (exec defaultContext b eid st).2))%nat /\
  (forall i, (i < n0)%nat ->
     refs (exec defaultContext b eid st).2 !! i = refs st !! i).
Proof.
  revert st r n0.
  induction b as [|v|e|b1 IH1 b2 IH2|body IH]; intros st r n0 Hr Hn0 Hlen;
    cbn [exec].
  - done.
  - unfold setContext. rewrite Hr. cbn [snd ref_assign ctx_read contexts refs].
    split; [exact Hr|]. split; [by rewrite length_insert|].
    intros i Hi. apply list_lookup_insert_ne. lia.
  - done.
  - destruct (IH1 st r n0 Hr Hn0 Hlen) as (Hr1 & Hlen1 & Hrefs1).
    destruct (exec defaultContext b1 eid st) as [[u|e] st1]; cbn [snd] in *.
    + destruct (IH2 st1 r n0 Hr1 Hn0 Hlen1) as (Hr2 & Hlen2 & Hrefs2).
      split; [exact Hr2|]. split; [exact Hlen2|].
      intros i Hi. by rewrite Hrefs2, Hrefs1.
    + done.
  - rewrite runWithNewContext_unfold. cbn [call fst snd].
    destruct (IH (fresh_scope defaultContext st eid) (length (refs st)) n0)
      as (Hr' & Hlen' & Hrefs').
    + apply ctx_read_write_eq.
    + exact Hlen.
    + unfold fresh_scope. cbn. rewrite length_app. lia.
    + split; [by rewrite ctx_read_write_eq|]. split; [exact Hlen'|].
      intros i Hi. cbn [refs ctx_write]. rewrite Hrefs' by exact Hi.
      unfold fresh_scope. cbn. apply lookup_app_l. lia.
Qed.

(** Nested blocks: whatever nesting of [setContext] and
    [runWithNewContext] calls a block holds, and whether it returns or
    throws, [getContext()] right after [runWithNewContext] of the block
    returns what it returned right before. *)
Theorem nested_blocks_restore_context
    (body : Block Ctx Exn) eid st :
  well_formed st ->
  getContext defaultContext eid
    (exec defaultContext (BRunWithNewContext body) eid st).2 =
  getContext defaultContext eid st.
Proof.
  intros Hwf. cbn [exec].
  destruct (runWithNewContext_getContext
              (mkFunc (exec defaultContext body) false 0) eid st)
    as (Hnone & Hsome).
  destruct (ctx_read st eid) as [r|] eqn:Hr; [|by apply Hnone].
  apply (Hsome r eq_refl). cbn [call].
  destruct (exec_frame body eid (fresh_scope defaultContext st eid)
              (length (refs st)) (length (refs st))) as (_ & _ & Hrefs).
  - apply ctx_read_write_eq.
  - lia.
  - unfold fresh_scope. cbn. rewrite length_app. lia.
  - rewrite Hrefs by (by eapply Hwf).
    unfold fresh_scope. cbn. apply lookup_app_l. by eapply Hwf.
Qed.

(** Stores reached from [enable()] are well formed: the operations of
    the store never make a binding dangle. *)
Lemma well_formed_enable st : well_formed (enable st).
Proof. intros id r. unfold ctx_read. cbn. by rewrite lookup_empty. Qed.

Lemma well_formed_dispatch ev eid st :
  well_formed st -> well_formed (dispatch ev eid st).
Proof.
  intros Hwf. unfold dispatch.
  destruct (hook_enabled st); [|exact Hwf].
  destruct ev as [id k t|id]; intros id' r.
  - unfold init.
    destruct (String.eqb k "PROMISE");
      (destruct (decide (id = id')) as [->|Hne];
       [rewrite ctx_read_write_eq | rewrite ctx_read_write_ne by done];
       apply Hwf).
  - unfold destroy, ctx_read, ctx_delete. cbn.
    destruct (decide (id = id')) as [->|Hne].
    + by rewrite lookup_delete_eq.
    + rewrite lookup_delete_ne by done. apply (Hwf id' r).
Qed.

Lemma well_formed_setContext v eid st :
  well_formed st -> well_formed (setContext v eid st).
Proof.
  intros Hwf. unfold setContext.
  destruct (ctx_read st eid) as [r|] eqn:Hr; intros id' r'.
  - unfold ref_assign, ctx_read. cbn. rewrite length_insert. apply (Hwf id' r').
  - cbn [new_ref].
    destruct (decide (eid = id')) as [->|Hne].
    + rewrite ctx_read_write_eq. intros [= <-]. cbn. rewrite length_app. cbn. lia.
    + rewrite ctx_read_write_ne by done. intros Hr'.
      cbn. rewrite length_app. pose proof (Hwf id' r' Hr'). lia.
Qed.

(** C10: when the executing unit has no binding, [bindWithCurrentContext]
    returns the very function it was given: the marker and the arity are
    those of [fn], a call of the result is a call of [fn] in the same
    store (nothing is installed before it and nothing restored after it),
    and so is every history of invocations. *)
Theorem bind_without_binding_is_identity {T} (fn : Func Ctx Exn T) eid0 st0 :
  ctx_read st0 eid0 = None ->
  let w := bindWithCurrentContext fn eid0 st0 in
  w = fn /\
  WRAPPED w = WRAPPED fn /\
  length_ w = length_ fn /\
  (forall eid st, call w eid st = call fn eid st) /\
  (forall history st, invoke_each w history st = invoke_each fn history st).
Proof.
  intros Hr w. subst w. rewrite (bind_unbound fn eid0 st0 Hr). done.
Qed.

End WithContext.

(** A promise created by unit 1, with trigger 2, inherits the Reference of
    unit 1. *)
Lemma init_inherits_destroy_deletes_witness :
  hook_enabled two_bound_units = true /\
  ctx_read (dispatch (EvInit 3 "PROMISE" 2) 1 two_bound_units) 3 = Some 0%nat.
Proof.
  split; [reflexivity|].
  destruct (init_inherits_destroy_deletes "default" two_bound_units 1 3 2
              "PROMISE" eq_refl) as [Hpromise _].
  destruct (Hpromise eq_refl) as [Hbinding _].
  rewrite Hbinding. reflexivity.
Defined.


(** C3, refuted as stated. First, unit 1 has no binding when it wraps a
    probe: the context at wrap time is the default, yet the callable,
    invoked on unit 2, reports the context of unit 2. Second, unit 1 is
    bound to a Reference holding ["A"] when it wraps the probe and then
    calls [setContext("C")]: the callable, invoked on unit 2, reports
    ["C"], not the context at wrap time. *)
Lemma wrapped_callback_misses_wrap_time_context :
  let unbound_wrap :=
    bindWithCurrentContext (context_probe (Exn := string) "default") 1
      one_bound_unit in
  let bound_wrap :=
    bindWithCurrentContext (context_probe (Exn := string) "default") 1
      two_bound_units in
  (getContext "default" 1 one_bound_unit = "default" /\
   (call unbound_wrap 2 one_bound_unit).1 = Return "B" /\
   (call unbound_wrap 2 one_bound_unit).1 <>
     Return (getContext "default" 1 one_bound_unit)) /\
  (getContext "default" 1 two_bound_units = "A" /\
   (call bound_wrap 2 (setContext "C" 1 two_bound_units)).1 = Return "C" /\
   (call bound_wrap 2 (setContext "C" 1 two_bound_units)).1 <>
     Return (getContext "default" 1 two_bound_units)).
Proof.
  cbv zeta. repeat split; try reflexivity; vm_compute; discriminate.
Qed.

(** Unit 1, bound to Reference 0, wraps a probe; invoked on unit 2 the
    probe reports Reference 0, and unit 2 is bound to Reference 1 again
    afterwards. *)
Lemma bound_callback_runs_in_captured_binding_witness :
  ctx_read two_bound_units 1 = Some 0%nat /\
  WRAPPED (binding_probe (Ctx := string) (Exn := string)) = false /\
  (call (bindWithCurrentContext (binding_probe (Exn := string)) 1
           two_bound_units) 2 two_bound_units).1 = Return (Some 0%nat) /\
  ctx_read
    (call (bindWithCurrentContext (binding_probe (Exn := string)) 1
             two_bound_units) 2 two_bound_units).2 2 = Some 1%nat.
Proof.
  split; [reflexivity|]. split; [reflexivity|].
  destruct (bound_callback_runs_in_captured_binding (Exn := string) "default"
              binding_probe 1 two_bound_units 0 eq_refl eq_refl)
    as (Hcall & _).
  destruct (Hcall 2%nat two_bound_units) as (_ & _ & Hout & Hrestore & _).
  split.
  - rewrite Hout. reflexivity.
  - rewrite Hrestore. reflexivity.
Defined.

(** Unit 1 has no binding in [one_bound_unit]: the probe comes back as it
    was given. *)
Lemma bind_without_binding_is_identity_witness :
  ctx_read one_bound_unit 1 = None /\
  bindWithCurrentContext (context_probe (Exn := string) "default") 1
    one_bound_unit = context_probe "default".
Proof.
  split; [reflexivity|].
  apply (bind_without_binding_is_identity (Exn := string)
           (context_probe "default") 1 one_bound_unit eq_refl).
Defined.

End CLSProperties.

(** ** The tracing policy *)

Module PolicyProperties.

Import TracingPolicy.

Local Open Scope Q_scope.

Lemma Qltb_true x y : Qltb x y = true <-> x < y.
Proof.
  unfold Qltb. rewrite negb_true_iff.
  split.
  - intros H. apply Qnot_le_lt. intros Hle.
    apply Qle_bool_iff in Hle. congruence.
  - intros H. destruct (Qle_bool y x) eqn:E; [|reflexivity].
    apply Qle_bool_iff in E. exfalso. exact (Qlt_not_le _ _ H E).
Qed.

Lemma Qltb_false x y : Qltb x y = false <-> y <= x.
Proof.
  unfold Qltb. rewrite negb_false_iff. apply Qle_bool_iff.
Qed.

Lemma sampler_for_zero R now : R == 0 -> sampler_for R now = SampleAlways.
Proof.
  intros H. unfold sampler_for.
  by rewrite (proj2 (Qeq_bool_iff R 0) H).
Qed.

Lemma sampler_for_negative R now : R < 0 -> sampler_for R now = SampleNever.
Proof.
  intros H. unfold sampler_for.
  destruct (Qeq_bool R 0) eqn:E.
  - apply Qeq_bool_iff in E. rewrite E in H. by apply Qlt_irrefl in H.
  - by rewrite (proj2 (Qltb_true R 0) H).
Qed.

Lemma sampler_for_positive R now :
  0 < R -> sampler_for R now = SampleRate (Sampler_new R now).
Proof.
  intros H. unfold sampler_for.
  destruct (Qeq_bool R 0) eqn:E.
  - apply Qeq_bool_iff in E. rewrite E in H. by apply Qlt_irrefl in H.
  - by rewrite (proj2 (Qltb_false R 0) (Qlt_le_weak _ _ H)).
Qed.

Lemma Sampler_new_in_range R now :
  R <= 1000 -> Sampler_new R now = mkSampler (1000 / R) now.
Proof.
  intros H. unfold Sampler_new. by rewrite (proj2 (Qltb_false 1000 R) H).
Qed.

Lemma Sampler_new_clamped R now :
  1000 < R -> Sampler_new R now = mkSampler (1000 / 1000) now.
Proof.
  intros H. unfold Sampler_new. by rewrite (proj2 (Qltb_true 1000 R) H).
Qed.

(** The window of a rate sampler never changes. *)
Lemma sampler_after_rate ts s :
  exists s', sampler_after ts (SampleRate s) = SampleRate s' /\
             traceWindow s' = traceWindow s.
Proof.
  revert s. induction ts as [|t ts IH]; intros s; simpl.
  - by exists s.
  - unfold Sampler_shouldTrace.
    destruct (Qltb t (nextTraceStart s)); simpl.
    + apply IH.
    + destruct (IH (mkSampler (traceWindow s) (t + traceWindow s)))
        as (s' & Hs' & Hw).
      by exists s'.
Qed.

Lemma sampler_after_always ts : sampler_after ts SampleAlways = SampleAlways.
Proof. induction ts; simpl; auto. Qed.

Lemma sampler_after_never ts : sampler_after ts SampleNever = SampleNever.
Proof. induction ts; simpl; auto. Qed.


(** The decisions of a rate sampler that were positive and fell in a
    window are spaced by the sampler's window, from its watermark on. *)
Lemma sampled_spaced from len ts s :
  0 <= traceWindow s ->
  spaced (traceWindow s) (nextTraceStart s)
    (sampled from len (decisions ts (SampleRate s))).
Proof.
  intros Hw. revert s Hw.
  induction ts as [|t ts IH]; intros s Hw; [exact I|].
  cbn [decisions sampler_shouldTrace]. unfold Sampler_shouldTrace.
  destruct (Qltb t (nextTraceStart s)) eqn:E.
  - unfold sampled. cbn [List.filter snd andb]. apply IH, Hw.
  - apply Qltb_false in E.
    specialize (IH (mkSampler (traceWindow s) (t + traceWindow s)) Hw).
    cbn [traceWindow nextTraceStart] in IH.
    unfold sampled in *. cbn [List.filter snd fst andb].
    destruct (in_window from len t).
    + cbn [spaced fst]. split; [exact E | exact IH].
    + destruct (List.filter _ _) as [|d rest]; [exact I|].
      cbn [spaced] in *. destruct IH as [Hd Hrest].
      split; [lra | exact Hrest].
Qed.

Lemma sampled_within from len ds :
  Forall (fun d => from <= fst d /\ fst d <= from + len) (sampled from len ds).
Proof.
  unfold sampled. apply List.Forall_forall. intros d Hd.
  apply List.filter_In in Hd as [_ Hd].
  apply andb_true_iff in Hd as [_ Hd]. unfold in_window in Hd.
  apply andb_true_iff in Hd as [H1 H2].
  split; by apply Qle_bool_iff.
Qed.

(** A non-empty spaced list reaches at least [(n - 1) * w] beyond its
    lower bound. *)
Lemma spaced_extent w lo hi l :
  0 <= w -> spaced w lo l -> Forall (fun d => fst d <= hi) l -> l <> [] ->
  lo + (inject_Z (Z.of_nat (length l)) - 1) * w <= hi.
Proof.
  intros Hw. revert lo.
  induction l as [|d rest IH]; intros lo Hsp Hall Hne; [done|].
  cbn [spaced] in Hsp. destruct Hsp as [Hlo Hrest].
  apply Forall_cons in Hall as [Hd Hall]. cbn beta in Hd.
  destruct rest as [|d' rest'].
  - cbn [length]. change (inject_Z (Z.of_nat 1)) with 1. lra.
  - specialize (IH (fst d + w) Hrest Hall ltac:(done)).
    remember (d' :: rest') as rest eqn:Er.
    cbn [length]. rewrite Nat2Z.inj_succ. unfold Z.succ.
    rewrite inject_Z_plus. change (inject_Z 1) with 1.
    generalize dependent (inject_Z (Z.of_nat (length rest))). intros n IH.
    lra.
Qed.


Section Filters.

Variable RegExp : Type.
Variable String_match : string -> string + RegExp -> bool.
Variable METHODS : list string.

(** C6, as amended: constructing the policy never throws and never logs,
    whatever the configuration; a sampling rate above 1000 is accepted
    and clamped without a word: the policy holds the rate sampler that a
    rate of exactly 1000 gives, with a window of [1000 / 1000]
    milliseconds. *)
Theorem rate_above_ceiling_clamped_silently
    (config : TracePolicyConfig RegExp) (now : Q) :
  1000 < samplingRate RegExp config ->
  ~ rejected_loudly RegExp (TracePolicy_construct RegExp METHODS config now) /\
  (exists p,
     TracePolicy_construct RegExp METHODS config now = (Return p, []) /\
     sampler RegExp p = SampleRate (mkSampler (1000 / 1000) now) /\
     sampler RegExp p = sampler_for 1000 now).
Proof.
  intros Hbig. split.
  - intros [[e He] | Hlog]; [discriminate He | by apply Hlog].
  - eexists. split; [reflexivity|].
    cbn [TracePolicy_new sampler].
    assert (0 < samplingRate RegExp config) as Hpos by lra.
    rewrite (sampler_for_positive _ now Hpos).
    rewrite (Sampler_new_clamped _ now Hbig).
    split; [reflexivity|].
    rewrite (sampler_for_positive 1000 now) by reflexivity.
    by rewrite (Sampler_new_in_range 1000 now) by apply Qle_refl.
Qed.

(** C9: whatever the deny list, the method filter lets a request pass
    whose method is absent or the empty string; so does the policy's
    method predicate for every configuration. *)
Theorem method_filter_passes_missing_method (deny : list string)
    (f : HTTPMethodFilter) (config : TracePolicyConfig RegExp) (now : Q) :
  HTTPMethodFilter_shouldTrace None (HTTPMethodFilter_new METHODS deny) = true /\
  HTTPMethodFilter_shouldTrace (Some "") (HTTPMethodFilter_new METHODS deny)
    = true /\
  HTTPMethodFilter_shouldTrace None f = true /\
  HTTPMethodFilter_shouldTrace (Some "") f = true /\
  methodFilter_shouldTrace None
    (methodFilter RegExp (TracePolicy_new RegExp METHODS config now)) = true /\
  methodFilter_shouldTrace (Some "")
    (methodFilter RegExp (TracePolicy_new RegExp METHODS config now)) = true.
Proof.
  repeat split; try reflexivity;
    cbn [TracePolicy_new methodFilter];
    by destruct (length (ignoreMethods RegExp config) =? 0)%nat.
Qed.

End Filters.

(** C6, refuted as stated: a policy built with a rate of 2000 is returned
    without an exception and without a log line, and its sampler has the
    window of rate 1000, not that of rate 2000. *)
Lemma rate_2000_accepted_without_notice :
  let res :=
    TracePolicy_construct unit ["GET"; "POST"]
      (mkTracePolicyConfig unit 2000 [] []) 0 in
  ~ rejected_loudly unit res /\
  res = (Return (mkTracePolicy unit
                   (SampleRate (mkSampler (1000 / 1000) 0))
                   (UrlAlways unit) MethodAlways), []).
Proof.
  split; [|reflexivity].
  intros [[e He] | Hlog]; [discriminate He | by apply Hlog].
Qed.

(** The filters and the sampler on small inputs. *)
Example method_filter_is_case_insensitive :
  HTTPMethodFilter_shouldTrace (Some "Get")
    (HTTPMethodFilter_new ["GET"; "POST"] ["get"; "bogus"]) = false /\
  HTTPMethodFilter_new ["GET"; "POST"] ["geT"; "bogus"]
    = mkHTTPMethodFilter ["get"].
Proof. split; reflexivity. Qed.

Example ten_per_second_decisions :
  map snd (decisions [0%Q; 50%Q; 100%Q; 250%Q] (sampler_for 10 0))
    = [true; false; true; true].
Proof. reflexivity. Qed.



Lemma rate_above_ceiling_clamped_silently_witness :
  1000 < 2000 /\
  ~ rejected_loudly unit
      (TracePolicy_construct unit ["GET"; "POST"]
         (mkTracePolicyConfig unit 2000 [] []) 0).
Proof.
  split; [reflexivity|].
  apply (rate_above_ceiling_clamped_silently unit ["GET"; "POST"]
           (mkTracePolicyConfig unit 2000 [] []) 0).
  reflexivity.
Defined.

End PolicyProperties.

(** ** The writers *)

Module WriterProperties.

Import TraceModel WriterConfig.

Local Open Scope list_scope.

Lemma Forall2_closed_relabelled (l l1 l2 : list TraceSpan) :
  Forall2 closed_version l l1 -> Forall2 relabelled l1 l2 ->
  Forall2 closed_version l l2.
Proof.
  intros H. revert l2. induction H as [|s s1 l l1 Hs Hl IH]; intros l2 H2.
  - inversion H2. constructor.
  - inversion H2 as [|? s2 ? l2' Hs2 Hl2]; subst. constructor; [|by apply IH].
    unfold closed_version, relabelled, isClosed in *.
    destruct Hs as (?&?&?&?&?&?&?), Hs2 as (?&?&?&?&?&Hend).
    rewrite Hend. intuition congruence.
Qed.

Lemma Forall2_relabelled_refl (l : list TraceSpan) : Forall2 relabelled l l.
Proof. induction l; constructor; auto. by repeat split. Qed.

Lemma Forall2_relabelled_trans (l1 l2 l3 : list TraceSpan) :
  Forall2 relabelled l1 l2 -> Forall2 relabelled l2 l3 ->
  Forall2 relabelled l1 l3.
Proof.
  intros H. revert l3. induction H as [|s1 s2 l1 l2 Hs Hl IH]; intros l3 H3.
  - inversion H3. constructor.
  - inversion H3 as [|? s3 ? l3' Hs3 Hl3]; subst. constructor; [|by apply IH].
    unfold relabelled in *.
    destruct Hs as (?&?&?&?&?&?), Hs3 as (?&?&?&?&?&?).
    repeat split; congruence.
Qed.

Lemma alter_setLabel_relabelled key value i (l : list TraceSpan) :
  Forall2 relabelled l (alter (setLabel key value) i l).
Proof.
  revert i. induction l as [|s l IH]; intros i; [constructor|].
  destruct i as [|i]; simpl.
  - constructor; [by repeat split | apply Forall2_relabelled_refl].
  - constructor; [by repeat split | apply IH].
Qed.

Lemma addLabel_relabelled key value sd :
  Forall2 relabelled (spans (trace sd)) (spans (trace (addLabel key value sd))).
Proof. apply alter_setLabel_relabelled. Qed.

Section Clock.

Variable clock : nat -> string.
Hypothesis clock_nonempty : forall n, clock n <> "".

(** The loop leaves closed spans alone and closes the others. *)
Lemma close_open_spans_closed (l : list TraceSpan) (reads : nat) :
  Forall2 closed_version l (close_open_spans clock isClosed l reads).1.
Proof.
  revert reads. induction l as [|s l IH]; intros reads; [constructor|].
  cbn [close_open_spans].
  destruct (isClosed s) eqn:Hs.
  - specialize (IH reads).
    destruct (close_open_spans clock isClosed l reads) as [rest' n].
    constructor; [|exact IH]. by repeat split.
  - specialize (IH (S reads)).
    destruct (close_open_spans clock isClosed l (S reads)) as [rest' n].
    constructor; [|exact IH].
    unfold close. rewrite Hs. unfold closed_version.
    do 5 (split; [reflexivity|]). split.
    + unfold isClosed. cbn [endTime].
      apply negb_true_iff, String.eqb_neq, clock_nonempty.
    + intros Hc. congruence.
Qed.

End Clock.

Ltac relabel :=
  repeat first
    [ apply Forall2_relabelled_refl
    | eapply Forall2_relabelled_trans; [|apply addLabel_relabelled] ].

Section Writers.

Variables GCE_HOSTNAME GCE_INSTANCE_ID GAE_MODULE_NAME GAE_MODULE_VERSION
  GAE_VERSION AGENT_DATA pjson_version : string.
Variable clock : nat -> string.
Hypothesis clock_nonempty : forall n, clock n <> "".

Local Abbreviation label_span :=
  (TraceWriter.label_span GCE_HOSTNAME GCE_INSTANCE_ID GAE_MODULE_NAME
     GAE_MODULE_VERSION GAE_VERSION AGENT_DATA pjson_version).
Local Abbreviation prepare :=
  (TraceWriter.prepare GCE_HOSTNAME GCE_INSTANCE_ID GAE_MODULE_NAME
     GAE_MODULE_VERSION GAE_VERSION AGENT_DATA pjson_version clock).
Local Abbreviation writeSpan :=
  (TraceWriter.writeSpan GCE_HOSTNAME GCE_INSTANCE_ID GAE_MODULE_NAME
     GAE_MODULE_VERSION GAE_VERSION AGENT_DATA pjson_version clock).

(** The labels the writer adds change nothing but labels. *)
Lemma label_span_relabelled c sd :
  Forall2 relabelled (spans (trace sd)) (spans (trace (label_span c sd))).
Proof.
  unfold TraceWriter.label_span.
  destruct (truthy (hostname c)), (truthy (instanceId c)),
    (truthy (js_or (gae_module_name c) (hostname c))),
    (truthy (gae_module_version c)), (truthy (gae_minor_version c)),
    (negb (bool_decide
             (js_or (gae_module_name c) (hostname c) = Some "default")));
    relabel.
Qed.

Lemma prepare_closed sd w :
  Forall2 closed_version (spans (trace sd)) (spans (trace (prepare sd w).1)).
Proof.
  unfold TraceWriter.prepare.
  pose proof (close_open_spans_closed clock clock_nonempty
                (spans (trace sd)) (TraceWriter.clock_reads w)) as Hc.
  destruct (close_open_spans clock isClosed _ _) as [spans' n].
  cbn [fst] in *.
  eapply Forall2_closed_relabelled; [exact Hc|].
  apply (label_span_relabelled (TraceWriter.config_ w)
           (TraceWriter.set_spans spans' sd)).
Qed.

Lemma prepare_config sd w :
  TraceWriter.config_ (prepare sd w).2 = TraceWriter.config_ w /\
  TraceWriter.buffer_ (prepare sd w).2 = TraceWriter.buffer_ w.
Proof.
  unfold TraceWriter.prepare.
  by destruct (close_open_spans clock isClosed _ _) as [spans' n].
Qed.

Lemma prepare_old_closed sd w :
  Forall2 closed_version (spans (trace sd))
    (spans (TraceWriterHttp.prepare clock sd w).1).
Proof.
  unfold TraceWriterHttp.prepare.
  change (fun s => negb (String.eqb (endTime s) "")) with isClosed.
  pose proof (close_open_spans_closed clock clock_nonempty
                (spans (trace sd)) (TraceWriterHttp.clock_reads w)) as Hc.
  by destruct (close_open_spans clock _ _ _) as [spans' n].
Qed.

Lemma prepare_old_config sd w :
  TraceWriterHttp.config_ (TraceWriterHttp.prepare clock sd w).2
    = TraceWriterHttp.config_ w /\
  TraceWriterHttp.buffer_ (TraceWriterHttp.prepare clock sd w).2
    = TraceWriterHttp.buffer_ w.
Proof.
  unfold TraceWriterHttp.prepare.
  by destruct (close_open_spans clock _ _ _) as [spans' n].
Qed.

Lemma closed_version_closed (l l' : list TraceSpan) :
  Forall2 closed_version l l' -> Forall (fun s => isClosed s = true) l'.
Proof.
  induction 1 as [|s s' l l' Hs Hl IH]; constructor; [|exact IH].
  by destruct Hs as (_&_&_&_&_&?&_).
Qed.

Lemma prepare_log sd w :
  TraceWriter.log (prepare sd w).2 = TraceWriter.log w.
Proof.
  unfold TraceWriter.prepare.
  by destruct (close_open_spans clock isClosed _ _) as [spans' n].
Qed.

Lemma prepare_old_log sd w :
  TraceWriterHttp.log (TraceWriterHttp.prepare clock sd w).2
    = TraceWriterHttp.log w.
Proof.
  unfold TraceWriterHttp.prepare.
  by destruct (close_open_spans clock _ _ _) as [spans' n].
Qed.

(** What [getProjectNumber] passes to its callback depends on the
    configuration and on the answer of the metadata service only. *)
Lemma getProjectNumber_config metadata w w' :
  TraceWriter.config_ w' = TraceWriter.config_ w ->
  (TraceWriter.getProjectNumber metadata w').1
    = (TraceWriter.getProjectNumber metadata w).1.
Proof.
  intros Hc. unfold TraceWriter.getProjectNumber. rewrite Hc.
  by destruct (truthy _), metadata.
Qed.

Lemma getProjectNumber_old_config metadata w w' :
  TraceWriterHttp.config_ w' = TraceWriterHttp.config_ w ->
  (TraceWriterHttp.getProjectNumber metadata w').1
    = (TraceWriterHttp.getProjectNumber metadata w).1.
Proof.
  intros Hc. unfold TraceWriterHttp.getProjectNumber. rewrite Hc.
  by destruct (truthy _), metadata.
Qed.

(** The buffer [queueTrace_] leaves, whatever the lookup answers. *)
Lemma queueTrace_buffer t metadata w :
  TraceWriter.buffer_ (TraceWriter.queueTrace_ t metadata w) =
  match (TraceWriter.getProjectNumber metadata w).1 with
  | LookupProject project =>
      TraceWriter.buffer_ w ++ [TraceWriter.set_project_id project t]
  | LookupError _ => TraceWriter.buffer_ w
  end.
Proof.
  unfold TraceWriter.queueTrace_, TraceWriter.getProjectNumber.
  destruct (truthy _); [|destruct metadata as [err|project]];
    cbn -[Z.leb Z.of_nat]; try reflexivity; by destruct (_ <=? _)%Z.
Qed.

Lemma queueTrace_dropped_log t metadata w err :
  (TraceWriter.getProjectNumber metadata w).1 = LookupError err ->
  TraceWriter.log (TraceWriter.queueTrace_ t metadata w) =
  TraceWriter.log w ++ [mkLogLine LInfo "No project number, dropping trace." []].
Proof.
  unfold TraceWriter.queueTrace_, TraceWriter.getProjectNumber.
  destruct (truthy _); [|destruct metadata as [err'|project]];
    cbn -[Z.leb Z.of_nat]; by intros [=].
Qed.

Lemma queueTrace_old_buffer t metadata w :
  TraceWriterHttp.buffer_ (TraceWriterHttp.queueTrace_ t metadata w) =
  match (TraceWriterHttp.getProjectNumber metadata w).1 with
  | LookupProject project =>
      if (Z.of_nat (length (TraceWriterHttp.buffer_ w))
          <=? bufferSize (TraceWriterHttp.config_ w))%Z
      then TraceWriterHttp.buffer_ w
             ++ [TraceWriterHttp.set_projectId project t]
      else TraceWriterHttp.buffer_ w
  | LookupError _ => TraceWriterHttp.buffer_ w
  end.
Proof.
  unfold TraceWriterHttp.queueTrace_, TraceWriterHttp.getProjectNumber.
  destruct (truthy _); [|destruct metadata as [err|project]];
    cbn -[Z.leb Z.of_nat]; try reflexivity;
    destruct (Z.of_nat (length (TraceWriterHttp.buffer_ w))
              <=? bufferSize (TraceWriterHttp.config_ w))%Z;
    cbn -[Z.leb Z.of_nat]; by destruct (_ && _).
Qed.

(** The older writer says nothing about a trace it does not keep. *)
Lemma queueTrace_old_dropped_log t metadata w :
  TraceWriterHttp.buffer_ (TraceWriterHttp.queueTrace_ t metadata w)
    = TraceWriterHttp.buffer_ w ->
  TraceWriterHttp.log (TraceWriterHttp.queueTrace_ t metadata w)
    = TraceWriterHttp.log w.
Proof.
  unfold TraceWriterHttp.queueTrace_, TraceWriterHttp.getProjectNumber.
  destruct (truthy _); [|destruct metadata as [err|project]];
    cbn -[Z.leb Z.of_nat]; try reflexivity;
    destruct (Z.of_nat (length (TraceWriterHttp.buffer_ w))
              <=? bufferSize (TraceWriterHttp.config_ w))%Z;
    cbn -[Z.leb Z.of_nat]; destruct (_ && _); cbn; try reflexivity;
    intros Hb; apply (f_equal length) in Hb;
    rewrite length_app in Hb; cbn in Hb; lia.
Qed.

(** C7, as amended: [writeSpan], in either writer, first gives an end
    time to every span of the trace that is still open, leaving the
    number, order, identity and start times of the spans and the end
    times of closed spans as they were, and only then hands the trace to
    [queueTrace_].  That trace, all spans closed, is appended to the
    buffer when [getProjectNumber] answers with a project (the configured
    one, or the one the lookup finds) and, in the older writer, the
    buffer holds at most [bufferSize] traces.  In every other case it is
    not enqueued and the buffer stays as it was: lib/trace-writer.js then
    logs "No project number, dropping trace.", the older writer logs
    nothing. *)
Theorem writeSpan_closes_open_spans_then_queues (spanData : SpanData)
    (metadata : Lookup) (w : TraceWriter.Writer)
    (w_old : TraceWriterHttp.Writer) :
  let queued := trace (prepare spanData w).1 in
  let queued_old := (TraceWriterHttp.prepare clock spanData w_old).1 in
  (writeSpan spanData metadata w =
     TraceWriter.queueTrace_ queued metadata (prepare spanData w).2 /\
   Forall2 closed_version (spans (trace spanData)) (spans queued) /\
   Forall (fun s => isClosed s = true) (spans queued) /\
   TraceWriter.buffer_ (writeSpan spanData metadata w) =
     match (TraceWriter.getProjectNumber metadata w).1 with
     | LookupProject project =>
         TraceWriter.buffer_ w ++ [TraceWriter.set_project_id project queued]
     | LookupError _ => TraceWriter.buffer_ w
     end /\
   (forall err,
      (TraceWriter.getProjectNumber metadata w).1 = LookupError err ->
      TraceWriter.log (writeSpan spanData metadata w) =
      TraceWriter.log w
        ++ [mkLogLine LInfo "No project number, dropping trace." []])) /\
  (TraceWriterHttp.writeSpan clock spanData metadata w_old =
     TraceWriterHttp.queueTrace_ queued_old metadata
       (TraceWriterHttp.prepare clock spanData w_old).2 /\
   Forall2 closed_version (spans (trace spanData)) (spans queued_old) /\
   Forall (fun s => isClosed s = true) (spans queued_old) /\
   TraceWriterHttp.buffer_
     (TraceWriterHttp.writeSpan clock spanData metadata w_old) =
     match (TraceWriterHttp.getProjectNumber metadata w_old).1 with
     | LookupProject project =>
         if (Z.of_nat (length (TraceWriterHttp.buffer_ w_old))
             <=? bufferSize (TraceWriterHttp.config_ w_old))%Z
         then TraceWriterHttp.buffer_ w_old
                ++ [TraceWriterHttp.set_projectId project queued_old]
         else TraceWriterHttp.buffer_ w_old
     | LookupError _ => TraceWriterHttp.buffer_ w_old
     end /\
   (TraceWriterHttp.buffer_
      (TraceWriterHttp.writeSpan clock spanData metadata w_old)
      = TraceWriterHttp.buffer_ w_old ->
    TraceWriterHttp.log
      (TraceWriterHttp.writeSpan clock spanData metadata w_old)
      = TraceWriterHttp.log w_old)).
Proof.
  intros queued queued_old. subst queued queued_old.
  pose proof (prepare_closed spanData w) as Hc.
  pose proof (prepare_old_closed spanData w_old) as Hc_old.
  pose proof (prepare_config spanData w) as [Hcfg Hbuf].
  pose proof (prepare_old_config spanData w_old) as [Hcfg_old Hbuf_old].
  pose proof (prepare_log spanData w) as Hlog.
  pose proof (prepare_old_log spanData w_old) as Hlog_old.
  assert (writeSpan spanData metadata w =
          TraceWriter.queueTrace_ (trace (prepare spanData w).1) metadata
            (prepare spanData w).2) as Hw.
  { unfold TraceWriter.writeSpan. by destruct (prepare spanData w). }
  assert (TraceWriterHttp.writeSpan clock spanData metadata w_old =
          TraceWriterHttp.queueTrace_
            (TraceWriterHttp.prepare clock spanData w_old).1 metadata
            (TraceWriterHttp.prepare clock spanData w_old).2) as Hw_old.
  { unfold TraceWriterHttp.writeSpan.
    by destruct (TraceWriterHttp.prepare clock spanData w_old). }
  split.
  - split; [exact Hw|]. split; [exact Hc|].
    split; [by eapply closed_version_closed|]. split.
    + rewrite Hw, queueTrace_buffer.
      by rewrite (getProjectNumber_config metadata w _ Hcfg), Hbuf.
    + intros err Herr. rewrite Hw.
      rewrite (queueTrace_dropped_log _ metadata _ err), Hlog; [done|].
      by rewrite (getProjectNumber_config metadata w _ Hcfg).
  - split; [exact Hw_old|]. split; [exact Hc_old|].
    split; [by eapply closed_version_closed|]. split.
    + rewrite Hw_old, queueTrace_old_buffer.
      by rewrite (getProjectNumber_old_config metadata w_old _ Hcfg_old),
        Hcfg_old, Hbuf_old.
    + rewrite Hw_old, <- Hbuf_old, <- Hlog_old.
      apply queueTrace_old_dropped_log.
Qed.

End Writers.

(** C8, as amended: when the configuration names no project and the
    lookup fails, [queueTrace_] does not retain the trace, however short
    the buffer is: buffer, pending flushes, published batches and
    configuration stay as they were; lib/trace-writer.js logs
    "No project number, dropping trace." at level info, the older writer
    logs nothing and is left unchanged altogether. *)
Theorem unresolved_project_drops_trace (t : Trace) (err : string)
    (w : TraceWriter.Writer) (w_old : TraceWriterHttp.Writer) :
  truthy (WriterConfig.projectId (TraceWriter.config_ w)) = false ->
  truthy (WriterConfig.projectId (TraceWriterHttp.config_ w_old)) = false ->
  let w' := TraceWriter.queueTrace_ t (LookupError err) w in
  TraceWriter.buffer_ w' = TraceWriter.buffer_ w /\
  TraceWriter.immediates w' = TraceWriter.immediates w /\
  TraceWriter.published w' = TraceWriter.published w /\
  TraceWriter.config_ w' = TraceWriter.config_ w /\
  TraceWriter.log w' =
    TraceWriter.log w
      ++ [mkLogLine LInfo "No project number, dropping trace." []] /\
  TraceWriterHttp.queueTrace_ t (LookupError err) w_old = w_old.
Proof.
  intros Hp Hp_old w'. subst w'.
  unfold TraceWriter.queueTrace_, TraceWriter.getProjectNumber,
    TraceWriterHttp.queueTrace_, TraceWriterHttp.getProjectNumber.
  by rewrite Hp, Hp_old.
Qed.

(** C8, refuted as stated: with an empty buffer of size 1000, no project
    in the configuration and a failing lookup, the trace passed to
    [queueTrace_] is in the buffer of neither writer afterwards. *)
Lemma trace_dropped_with_room_left :
  let w := Samples.grpc_writer Samples.no_project in
  let w_old := Samples.http_writer Samples.no_project in
  let w' :=
    TraceWriter.queueTrace_ Samples.sample_trace (LookupError "ENOTFOUND") w in
  let w_old' :=
    TraceWriterHttp.queueTrace_ Samples.sample_trace
      (LookupError "ENOTFOUND") w_old in
  (Z.of_nat (length (TraceWriter.buffer_ w))
   < bufferSize (TraceWriter.config_ w))%Z /\
  TraceWriter.buffer_ w' = [] /\
  TraceWriter.log w' =
    [mkLogLine LInfo "No project number, dropping trace." []] /\
  TraceWriterHttp.buffer_ w_old' = [] /\
  TraceWriterHttp.log w_old' = [].
Proof. repeat split. Qed.

Example open_child_closed_at_clock_time :
  map endTime
    (spans (TraceWriterHttp.prepare Samples.sample_clock
              Samples.sample_spanData
              (Samples.http_writer Samples.with_project)).1)
  = ["2017-01-01T00:00:01.000Z"; "2017-01-01T00:00:02.000Z"].
Proof. reflexivity. Qed.

(** C7, refuted as stated: the sample trace, whose child span is open,
    is handed to [writeSpan] of writers without a configured project
    while the lookup fails; afterwards it is in the buffer of neither
    writer, and the older writer has logged nothing.  The older writer,
    with the project configured and a buffer size of 1, keeps the first
    two traces handed to it and drops the third without a log line. *)
Lemma writeSpan_drops_trace_handed_over :
  let lib_writeSpan :=
    TraceWriter.writeSpan
      "trace.cloud.google.com/gce/hostname"
      "trace.cloud.google.com/gce/instanceid"
      "g.co/gae/app/module" "g.co/gae/app/module_version"
      "g.co/gae/app/version" "trace.cloud.google.com/agent"
      "1.0.0" Samples.sample_clock in
  let old_writeSpan := TraceWriterHttp.writeSpan Samples.sample_clock in
  let w' :=
    lib_writeSpan Samples.sample_spanData (LookupError "ENOTFOUND")
      (Samples.grpc_writer Samples.no_project) in
  let w_old' :=
    old_writeSpan Samples.sample_spanData (LookupError "ENOTFOUND")
      (Samples.http_writer Samples.no_project) in
  let twice :=
    old_writeSpan Samples.sample_spanData (LookupError "unused")
      (old_writeSpan Samples.sample_spanData (LookupError "unused")
         (Samples.http_writer Samples.small_buffer)) in
  let thrice :=
    old_writeSpan Samples.sample_spanData (LookupError "unused") twice in
  TraceWriter.buffer_ w' = [] /\
  TraceWriterHttp.buffer_ w_old' = [] /\
  TraceWriterHttp.log w_old' = [] /\
  length (TraceWriterHttp.buffer_ twice) = 2%nat /\
  TraceWriterHttp.buffer_ thrice = TraceWriterHttp.buffer_ twice /\
  TraceWriterHttp.log thrice = TraceWriterHttp.log twice /\
  TraceWriterHttp.immediates thrice = [].
Proof. repeat split. Qed.

(** The sample trace, whose child span is open, written by both writers
    with the project configured: the child is closed at the clock's time
    and the trace, stamped with the project, is the one entry of the
    buffer. *)
Lemma writeSpan_closes_open_spans_then_queues_witness :
  let lib_prepare :=
    TraceWriter.prepare
      "trace.cloud.google.com/gce/hostname"
      "trace.cloud.google.com/gce/instanceid"
      "g.co/gae/app/module" "g.co/gae/app/module_version"
      "g.co/gae/app/version" "trace.cloud.google.com/agent"
      "1.0.0" Samples.sample_clock in
  let lib_writeSpan :=
    TraceWriter.writeSpan
      "trace.cloud.google.com/gce/hostname"
      "trace.cloud.google.com/gce/instanceid"
      "g.co/gae/app/module" "g.co/gae/app/module_version"
      "g.co/gae/app/version" "trace.cloud.google.com/agent"
      "1.0.0" Samples.sample_clock in
  let w := Samples.grpc_writer Samples.with_project in
  let w_old := Samples.http_writer Samples.with_project in
  (forall n, Samples.sample_clock n <> "") /\
  Forall (fun s => isClosed s = true)
    (spans (trace (lib_prepare Samples.sample_spanData w).1)) /\
  TraceWriter.buffer_
    (lib_writeSpan Samples.sample_spanData (LookupError "unused") w) =
    [TraceWriter.set_project_id "my-project"
       (trace (lib_prepare Samples.sample_spanData w).1)] /\
  Forall (fun s => isClosed s = true)
    (spans (TraceWriterHttp.prepare Samples.sample_clock
              Samples.sample_spanData w_old).1) /\
  TraceWriterHttp.buffer_
    (TraceWriterHttp.writeSpan Samples.sample_clock Samples.sample_spanData
       (LookupError "unused") w_old) =
    [TraceWriterHttp.set_projectId "my-project"
       (TraceWriterHttp.prepare Samples.sample_clock
          Samples.sample_spanData w_old).1].
Proof.
  intros lib_prepare lib_writeSpan w w_old.
  assert (forall n, Samples.sample_clock n <> "") as Hclock
    by (intros n; discriminate).
  split; [exact Hclock|].
  destruct (writeSpan_closes_open_spans_then_queues
              "trace.cloud.google.com/gce/hostname"
              "trace.cloud.google.com/gce/instanceid"
              "g.co/gae/app/module" "g.co/gae/app/module_version"
              "g.co/gae/app/version" "trace.cloud.google.com/agent"
              "1.0.0" Samples.sample_clock Hclock Samples.sample_spanData
              (LookupError "unused") w w_old)
    as [(_ & _ & Hgrpc & Hbuffer & _) (_ & _ & Hhttp & Hbuffer_old & _)].
  split; [exact Hgrpc|]. split; [exact Hbuffer|].
  split; [exact Hhttp | exact Hbuffer_old].
Defined.

Lemma unresolved_project_drops_trace_witness :
  truthy (WriterConfig.projectId
            (TraceWriter.config_ (Samples.grpc_writer Samples.no_project)))
    = false /\
  truthy (WriterConfig.projectId
            (TraceWriterHttp.config_ (Samples.http_writer Samples.no_project)))
    = false /\
  TraceWriter.buffer_
    (TraceWriter.queueTrace_ Samples.sample_trace (LookupError "ENOTFOUND")
       (Samples.grpc_writer Samples.no_project)) = [].
Proof.
  split; [reflexivity|]. split; [reflexivity|].
  destruct (unresolved_project_drops_trace Samples.sample_trace "ENOTFOUND"
              (Samples.grpc_writer Samples.no_project)
              (Samples.http_writer Samples.no_project) eq_refl eq_refl)
    as (Hbuffer & _).
  rewrite Hbuffer. reflexivity.
Defined.

End WriterProperties.

(** ** More on the continuation-local storage *)

Module CLSExtras.

Import AsyncHooksCLS Probes HookRuns EmitterPatch CLSProperties.

Section WithContext.

Context {Ctx Exn : Type}.
Variable defaultContext : Ctx.

Implicit Types (st : Store Ctx) (eid id : AsyncId) (r : Ref).

Lemma ctx_read_ref_assign st r v id :
  ctx_read (ref_assign st r v) id = ctx_read st id.
Proof. reflexivity. Qed.

Lemma ctx_read_new_ref st v id :
  ctx_read (new_ref st v).2 id = ctx_read st id.
Proof. reflexivity. Qed.

Lemma setContext_bound v eid st r :
  ctx_read st eid = Some r -> setContext v eid st = ref_assign st r v.
Proof. intros Hr. unfold setContext. by rewrite Hr. Qed.

Lemma setContext_unbound v eid st :
  ctx_read st eid = None ->
  setContext v eid st =
  ctx_write (new_ref st v).2 eid (Some (new_ref st v).1).
Proof. intros Hr. unfold setContext. by rewrite Hr. Qed.

(** Units bound to the Reference that is written read the new value. *)
Lemma setContext_sharer v eid st id r :
  well_formed st ->
  ctx_read st eid = Some r -> ctx_read st id = Some r ->
  getContext defaultContext id (setContext v eid st) = v.
Proof.
  intros Hwf Heid Hid. rewrite (setContext_bound v eid st r Heid).
  unfold getContext. rewrite ctx_read_ref_assign, Hid.
  unfold ref_value, ref_assign. cbn [refs].
  rewrite list_lookup_insert_eq; [done|]. by apply (Hwf id r).
Qed.

(** Units bound to another Reference, or to none, read what they read. *)
Lemma setContext_stranger v eid st id :
  well_formed st ->
  id <> eid -> ctx_read st id <> ctx_read st eid \/ ctx_read st eid = None ->
  getContext defaultContext id (setContext v eid st) =
  getContext defaultContext id st.
Proof.
  intros Hwf Hne Hdiff.
  destruct (ctx_read st eid) as [r|] eqn:Heid.
  - destruct Hdiff as [Hdiff|]; [|done].
    rewrite (setContext_bound v eid st r Heid).
    unfold getContext. rewrite ctx_read_ref_assign.
    destruct (ctx_read st id) as [r'|]; [|done].
    unfold ref_value, ref_assign. cbn [refs].
    rewrite list_lookup_insert_ne; [done|]. congruence.
  - rewrite (setContext_unbound v eid st Heid).
    unfold getContext. rewrite ctx_read_write_ne by done.
    rewrite ctx_read_new_ref.
    destruct (ctx_read st id) as [r'|] eqn:Hid; [|done].
    unfold ref_value, new_ref, ctx_write. cbn [refs snd].
    rewrite lookup_app_l; [done|]. by apply (Hwf id r').
Qed.

(** [getContext()] right after [setContext(v)] on the same unit is [v],
    whether the unit had a binding or not. *)
Theorem getContext_after_setContext v eid st :
  well_formed st ->
  getContext defaultContext eid (setContext v eid st) = v.
Proof.
  intros Hwf.
  destruct (ctx_read st eid) as [r|] eqn:Hr.
  - by apply (setContext_sharer v eid st eid r).
  - rewrite (setContext_unbound v eid st Hr).
    rewrite getContext_ctx_write_eq. apply ref_value_new_ref.
Qed.

(** [setContext(v)] writes into the Reference the unit is bound to: every
    unit bound to that Reference reads [v] from then on, and every other
    unit reads what it read before. A unit without a binding gets a
    Reference of its own, and no other unit is affected. *)
Theorem setContext_reaches_exactly_the_sharers v eid st :
  well_formed st ->
  (forall id r,
     ctx_read st eid = Some r -> ctx_read st id = Some r ->
     getContext defaultContext id (setContext v eid st) = v) /\
  (forall id,
     id <> eid -> ctx_read st id <> ctx_read st eid ->
     getContext defaultContext id (setContext v eid st) =
     getContext defaultContext id st) /\
  (forall id,
     id <> eid -> ctx_read st eid = None ->
     getContext defaultContext id (setContext v eid st) =
     getContext defaultContext id st).
Proof.
  intros Hwf. split; [|split].
  - intros id r. by apply setContext_sharer.
  - intros id Hne Hdiff. apply setContext_stranger; auto.
  - intros id Hne Hnone. apply setContext_stranger; auto.
Qed.

(** A unit created while its parent (the executing unit for a PROMISE,
    the trigger otherwise) is bound keeps following the parent: a later
    [setContext(v)] of the parent is what the child reads. A unit created
    while the parent has no binding does not: after the parent's
    [setContext(v)] the child still reads the default. *)
Theorem child_follows_bound_parent_only v eid st c t (k : string) :
  hook_enabled st = true ->
  well_formed st ->
  let parent := if String.eqb k "PROMISE" then eid else t in
  c <> parent ->
  let created := dispatch (EvInit c k t) eid st in
  (is_Some (ctx_read st parent) ->
   getContext defaultContext c (setContext v parent created) = v) /\
  (ctx_read st parent = None ->
   getContext defaultContext c (setContext v parent created)
     = defaultContext).
Proof.
  intros Hen Hwf parent Hne created.
  assert (well_formed created) as Hwf' by by apply well_formed_dispatch.
  assert (ctx_read created c = ctx_read st parent) as Hc.
  { subst created parent. unfold dispatch. rewrite Hen. unfold init.
    destruct (String.eqb k "PROMISE"); apply ctx_read_write_eq. }
  assert (ctx_read created parent = ctx_read st parent) as Hp.
  { subst created. unfold dispatch. rewrite Hen. unfold init.
    destruct (String.eqb k "PROMISE"); by apply ctx_read_write_ne. }
  split.
  - intros [r Hr].
    apply (setContext_sharer v parent created c r);
      [exact Hwf' | congruence | congruence].
  - intros Hnone.
    rewrite setContext_stranger; [|done|done|right; congruence].
    unfold getContext. by rewrite Hc, Hnone.
Qed.

Lemma dispatch_all_cons ev (evs : list (Event * AsyncId)) st :
  dispatch_all (ev :: evs) st = dispatch_all evs (dispatch ev.1 ev.2 st).
Proof. reflexivity. Qed.

Lemma hook_enabled_dispatch ev eid st :
  hook_enabled (dispatch ev eid st) = hook_enabled st.
Proof.
  unfold dispatch. destruct (hook_enabled st) eqn:Hen; [|exact Hen].
  destruct ev as [id k t|id]; [|exact Hen].
  unfold init. by destruct (String.eqb k "PROMISE").
Qed.

Lemma dispatch_all_disabled (evs : list (Event * AsyncId)) st :
  hook_enabled st = false -> dispatch_all evs st = st.
Proof.
  revert st. induction evs as [|ev evs IH]; intros st Hoff; [done|].
  rewrite dispatch_all_cons.
  assert (dispatch ev.1 ev.2 st = st) as ->
    by (unfold dispatch; by rewrite Hoff).
  by apply IH.
Qed.

(** [enable()] and [disable()] both forget every binding, so that every
    unit reads the default afterwards; and once the store is disabled no
    creation or destruction of units changes it: every unit keeps
    reading the default whatever events follow. *)
Theorem disable_forgets_and_ignores_events
    (evs : list (Event * AsyncId)) st id :
  getContext defaultContext id (enable st) = defaultContext /\
  isEnabled (enable st) = true /\
  isEnabled (disable st) = false /\
  dispatch_all evs (disable st) = disable st /\
  getContext defaultContext id (dispatch_all evs (disable st))
    = defaultContext.
Proof.
  assert (dispatch_all evs (disable st) = disable st) as Hoff
    by by apply dispatch_all_disabled.
  rewrite Hoff. by repeat split.
Qed.

Lemma dom_dispatch_all (evs : list (Event * AsyncId)) st :
  hook_enabled st = true ->
  dom (contexts (dispatch_all evs st)) = live_after (dom (contexts st)) evs.
Proof.
  revert st. induction evs as [|[ev eid] evs IH]; intros st Hen; [done|].
  rewrite dispatch_all_cons. unfold live_after. cbn [foldl fst snd].
  rewrite IH by by rewrite hook_enabled_dispatch.
  unfold live_after. f_equal.
  unfold dispatch. rewrite Hen.
  destruct ev as [id k t|id].
  - unfold init. destruct (String.eqb k "PROMISE");
      cbn [ctx_write contexts]; by rewrite dom_insert_L.
  - unfold destroy, ctx_delete. cbn [contexts]. by rewrite dom_delete_L.
Qed.

(** From [enable()] on, the keys of [contexts] are exactly the units
    that were created and not yet destroyed: every creation adds its id,
    every destruction removes it, nothing else stays behind. *)
Theorem contexts_holds_exactly_the_live_units
    (evs : list (Event * AsyncId)) st :
  dom (contexts (dispatch_all evs (enable st))) = live_after ∅ evs.
Proof.
  rewrite dom_dispatch_all by done.
  cbn [enable contexts]. by rewrite dom_empty_L.
Qed.

(** A block run by a bound unit does not touch the entry of any other
    unit. *)
Lemma exec_others (b : Block Ctx Exn) eid st r id :
  ctx_read st eid = Some r -> id <> eid ->
  ctx_read (exec defaultContext b eid st).2 id = ctx_read st id.
Proof.
  revert st r.
  induction b as [|v|e|b1 IH1 b2 IH2|body IH]; intros st r Hr Hne; cbn [exec].
  - done.
  - by rewrite (setContext_bound v eid st r Hr).
  - done.
  - destruct (exec_frame defaultContext b1 eid st r 0 Hr) as (Hr1 & _);
      [lia | lia |].
    specialize (IH1 st r Hr Hne).
    destruct (exec defaultContext b1 eid st) as [[u|e] st1]; cbn [snd] in *.
    + rewrite (IH2 st1 r Hr1 Hne). exact IH1.
    + exact IH1.
  - rewrite runWithNewContext_unfold. cbn [call fst snd].
    rewrite ctx_read_write_ne by done.
    rewrite (IH (fresh_scope defaultContext st eid) (length (refs st)));
      [|apply ctx_read_write_eq | done].
    unfold fresh_scope. by rewrite ctx_read_write_ne by done.
Qed.

(** Whatever a nested block of [setContext] and [runWithNewContext]
    calls does inside [runWithNewContext], no unit, the executing one
    included, reads another context after the call than before it. *)
Theorem nested_blocks_leave_every_unit_alone (body : Block Ctx Exn)
    eid st id :
  well_formed st ->
  getContext defaultContext id
    (exec defaultContext (BRunWithNewContext body) eid st).2 =
  getContext defaultContext id st.
Proof.
  intros Hwf.
  destruct (decide (id = eid)) as [->|Hne].
  { cbn [exec].
    destruct (runWithNewContext_getContext defaultContext
                (mkFunc (exec defaultContext body) false 0) eid st)
      as (Hnone & Hsome).
    destruct (ctx_read st eid) as [r|] eqn:Hr; [|by apply Hnone].
    apply (Hsome r eq_refl). cbn [call].
    destruct (exec_frame defaultContext body eid
                (fresh_scope defaultContext st eid)
                (length (refs st)) (length (refs st))) as (_ & _ & Hrefs).
    - apply ctx_read_write_eq.
    - lia.
    - unfold fresh_scope. cbn. rewrite length_app. lia.
    - rewrite Hrefs by (by eapply Hwf).
      unfold fresh_scope. cbn. apply lookup_app_l. by eapply Hwf. }
  cbn [exec]. rewrite runWithNewContext_unfold. cbn [call fst snd].
  unfold getContext. rewrite ctx_read_write_ne by done.
  rewrite (exec_others body eid (fresh_scope defaultContext st eid)
             (length (refs st)) id); [|apply ctx_read_write_eq | done].
  unfold fresh_scope at 1. rewrite ctx_read_write_ne by done.
  rewrite ctx_read_new_ref.
  destruct (ctx_read st id) as [r'|] eqn:Hid; [|done].
  unfold ref_value. cbn [refs ctx_write]. f_equal.
  destruct (exec_frame defaultContext body eid
              (fresh_scope defaultContext st eid)
              (length (refs st)) (length (refs st))) as (_ & _ & Hrefs).
  - apply ctx_read_write_eq.
  - lia.
  - unfold fresh_scope. cbn. rewrite length_app. lia.
  - rewrite Hrefs by (by eapply Hwf).
    unfold fresh_scope. cbn. apply lookup_app_l. by eapply Hwf.
Qed.

Lemma bind_idempotent {T} (fn : Func Ctx Exn T) eid st :
  bindWithCurrentContext (bindWithCurrentContext fn eid st) eid st =
  bindWithCurrentContext fn eid st.
Proof.
  destruct (WRAPPED fn) eqn:Hw.
  - by rewrite !(bind_wrapped fn) by done.
  - destruct (ctx_read st eid) as [r|] eqn:Hr.
    + rewrite (bind_bound fn eid st r Hw Hr). by apply bind_wrapped.
    + by rewrite !(bind_unbound fn eid st Hr).
Qed.

Section Emitter.

Variable Res : Type.

Implicit Types (ee : gmap string (Method Ctx Exn Res)) (m : string).

Lemma patch_method_lookup ee m' m :
  patch_method ee m' !! m =
  if decide (m = m') then propagating <$> ee !! m else ee !! m.
Proof.
  unfold patch_method. destruct (decide (m = m')) as [->|Hne].
  - destruct (ee !! m') as [old|] eqn:Hold.
    + by rewrite lookup_insert_eq.
    + by rewrite Hold.
  - destruct (ee !! m') as [old|]; [|done]. by rewrite lookup_insert_ne.
Qed.

Lemma foldl_patch_lookup (ms : list string) ee m :
  NoDup ms ->
  foldl patch_method ee ms !! m =
  if decide (m ∈ ms) then propagating <$> ee !! m else ee !! m.
Proof.
  intros Hnd. revert ee.
  induction Hnd as [|m' ms Hnotin Hnd IH]; intros ee; cbn [foldl].
  - case_decide as Hin; [by apply elem_of_nil in Hin | done].
  - rewrite IH, !patch_method_lookup.
    repeat case_decide; subst; try done;
      exfalso; rewrite elem_of_cons in *; tauto.
Qed.

Lemma EVENT_EMITTER_METHODS_NoDup : NoDup EVENT_EMITTER_METHODS.
Proof. unfold EVENT_EMITTER_METHODS. compute_done. Qed.

(** Patching an emitter changes the five registration methods it has and
    nothing else: no method is added, every other method is the one it
    was, and each patched method calls the old one with the listener
    wrapped by [bindWithCurrentContext] on the registering unit. Patching
    a second time registers the same listeners as patching once, since a
    wrapped listener is not wrapped again. *)
Theorem patched_emitter_binds_listeners ee m :
  let patched := patchEmitterToPropagateContext ee in
  dom patched = dom ee /\
  (m ∉ EVENT_EMITTER_METHODS -> patched !! m = ee !! m) /\
  (m ∈ EVENT_EMITTER_METHODS ->
   patched !! m = propagating <$> ee !! m /\
   forall oldMethod, ee !! m = Some oldMethod ->
     exists twice,
       patchEmitterToPropagateContext patched !! m = Some twice /\
       forall event cb eid st,
         propagating oldMethod event cb eid st =
           oldMethod event (bindWithCurrentContext cb eid st) eid st /\
         twice event cb eid st = propagating oldMethod event cb eid st).
Proof.
  intros patched. subst patched. unfold patchEmitterToPropagateContext.
  split; [|split].
  - apply set_eq. intros m0. rewrite !elem_of_dom.
    rewrite (foldl_patch_lookup _ ee m0 EVENT_EMITTER_METHODS_NoDup).
    destruct (decide (m0 ∈ EVENT_EMITTER_METHODS)); [|done].
    by rewrite fmap_is_Some.
  - intros Hnotin.
    rewrite (foldl_patch_lookup _ ee m EVENT_EMITTER_METHODS_NoDup).
    by rewrite decide_False.
  - intros Hin.
    rewrite !(foldl_patch_lookup _ _ m EVENT_EMITTER_METHODS_NoDup).
    rewrite !decide_True by done.
    split; [done|]. intros oldMethod Hold. rewrite Hold. cbn.
    eexists. split; [reflexivity|].
    intros event cb eid st. split; [reflexivity|].
    unfold propagating. by rewrite bind_idempotent.
Qed.

End Emitter.

End WithContext.

Lemma two_bound_units_well_formed : well_formed two_bound_units.
Proof.
  intros id r. unfold ctx_read, two_bound_units. cbn [contexts refs length].
  destruct (decide (id = 1%nat)) as [->|H1].
  { rewrite lookup_insert_eq. intros [= <-]. lia. }
  rewrite lookup_insert_ne by done.
  destruct (decide (id = 2%nat)) as [->|H2].
  { rewrite lookup_singleton_eq. intros [= <-]. lia. }
  rewrite lookup_singleton_ne by done. done.
Qed.

(** Unit 1 reads ["X"] right after it has set it. *)
Lemma getContext_after_setContext_witness :
  well_formed two_bound_units /\
  getContext "default" 1 (setContext "X" 1 two_bound_units) = "X".
Proof.
  split; [exact two_bound_units_well_formed|].
  apply (getContext_after_setContext "default" "X" 1 two_bound_units
           two_bound_units_well_formed).
Defined.

(** Unit 2 is bound to another Reference than unit 1: it still reads
    ["B"] after unit 1 has set ["X"]. *)
Lemma setContext_reaches_exactly_the_sharers_witness :
  well_formed two_bound_units /\
  getContext "default" 2 (setContext "X" 1 two_bound_units) = "B".
Proof.
  split; [exact two_bound_units_well_formed|].
  destruct (setContext_reaches_exactly_the_sharers "default" "X" 1
              two_bound_units two_bound_units_well_formed)
    as (_ & Hother & _).
  rewrite (Hother 2%nat) by done. reflexivity.
Defined.

(** Unit 3, a timer created by unit 1, reads ["X"] after unit 1 has set
    it. *)
Lemma child_follows_bound_parent_only_witness :
  hook_enabled two_bound_units = true /\
  well_formed two_bound_units /\
  getContext "default" 3
    (setContext "X" 1 (dispatch (EvInit 3 "Timeout" 1) 2 two_bound_units))
    = "X".
Proof.
  split; [reflexivity|]. split; [exact two_bound_units_well_formed|].
  destruct (child_follows_bound_parent_only "default" "X" 2 two_bound_units
              3 1 "Timeout" eq_refl two_bound_units_well_formed)
    as (Hbound & _); [done|].
  apply Hbound. by exists 0%nat.
Defined.

(** Unit 1 sets ["X"], then runs a nested block that sets ["Y"] and
    throws: it reads ["A"] again after the outer call, and unit 2 still
    reads ["B"]. *)
Lemma nested_blocks_restore_context_witness :
  well_formed two_bound_units /\
  getContext "default" 1
    (exec (Exn := string) "default"
       (BRunWithNewContext
          (BSeq (BSetContext "X")
             (BRunWithNewContext (BSeq (BSetContext "Y") (BThrow "boom")))))
       1 two_bound_units).2
  = "A".
Proof.
  split; [exact two_bound_units_well_formed|].
  rewrite (nested_blocks_restore_context (Exn := string) "default" _ 1
             two_bound_units two_bound_units_well_formed).
  reflexivity.
Defined.

Lemma nested_blocks_leave_every_unit_alone_witness :
  well_formed two_bound_units /\
  getContext "default" 2
    (exec (Exn := string) "default"
       (BRunWithNewContext
          (BSeq (BSetContext "X")
             (BRunWithNewContext (BSeq (BSetContext "Y") (BThrow "boom")))))
       1 two_bound_units).2
  = "B".
Proof.
  split; [exact two_bound_units_well_formed|].
  rewrite (nested_blocks_leave_every_unit_alone (Exn := string) "default" _ 1
             two_bound_units 2 two_bound_units_well_formed).
  reflexivity.
Defined.

End CLSExtras.

(** ** More on the tracing policy *)

Module PolicyExtras.

Import TracingPolicy PolicyRuns PolicyProperties.

Local Open Scope Q_scope.

Lemma indexOf_from_bounds xs x i :
  (0 <= i)%Z ->
  (indexOf_from xs x i = -1 /\ ~ In x xs)%Z \/
  ((i <= indexOf_from xs x i)%Z /\ In x xs).
Proof.
  revert i. induction xs as [|y ys IH]; intros i Hi; cbn [indexOf_from].
  - left. split; [done | by intros []].
  - destruct (String.eqb y x) eqn:E.
    + apply String.eqb_eq in E. right. split; [lia | by left].
    + apply String.eqb_neq in E.
      destruct (IH (i + 1)%Z ltac:(lia)) as [[H1 H2]|[H1 H2]].
      * left. split; [done|]. intros [?|?]; done.
      * right. split; [lia | by right].
Qed.

(** [indexOf] answers [-1] exactly for the strings that are not in the
    array. *)
Lemma indexOf_absent xs x : (indexOf xs x =? -1)%Z = true <-> ~ In x xs.
Proof.
  unfold indexOf. rewrite Z.eqb_eq.
  destruct (indexOf_from_bounds xs x 0 ltac:(lia)) as [[H1 H2]|[H1 H2]].
  - by rewrite H1.
  - split; [lia | done].
Qed.

Section Filters.

Variable RegExp : Type.
Variable String_match : string -> string + RegExp -> bool.
Variable METHODS : list string.

Local Abbreviation policy_after := (policy_after RegExp String_match).
Local Abbreviation shouldTrace :=
  (TracePolicy_shouldTrace RegExp String_match).
Local Abbreviation new_policy := (TracePolicy_new RegExp METHODS).

Lemma policy_after_filters reqs (p : TracePolicy RegExp) :
  urlFilter RegExp (policy_after reqs p) = urlFilter RegExp p /\
  methodFilter RegExp (policy_after reqs p) = methodFilter RegExp p.
Proof.
  revert p. induction reqs as [|o reqs IH]; intros p; [done|].
  unfold PolicyRuns.policy_after. cbn [foldl].
  destruct (IH (shouldTrace o p).2) as [Hu Hm].
  unfold PolicyRuns.policy_after in Hu, Hm. rewrite Hu, Hm.
  unfold TracePolicy_shouldTrace.
  by destruct (sampler_shouldTrace _ _).
Qed.

Lemma policy_after_sampler reqs (p : TracePolicy RegExp) :
  sampler RegExp (policy_after reqs p) =
  sampler_after (map timestamp reqs) (sampler RegExp p).
Proof.
  revert p. induction reqs as [|o reqs IH]; intros p; [done|].
  unfold PolicyRuns.policy_after. cbn [foldl map sampler_after].
  specialize (IH (shouldTrace o p).2).
  unfold PolicyRuns.policy_after in IH. rewrite IH. f_equal.
  unfold TracePolicy_shouldTrace.
  by destruct (sampler_shouldTrace _ _).
Qed.

Lemma shouldTrace_conjunction options (p : TracePolicy RegExp) :
  (shouldTrace options p).1 =
  (sampler_shouldTrace (timestamp options) (sampler RegExp p)).1
  && urlFilter_shouldTrace RegExp String_match (url options)
       (urlFilter RegExp p)
  && methodFilter_shouldTrace (method options) (methodFilter RegExp p).
Proof.
  unfold TracePolicy_shouldTrace. by destruct (sampler_shouldTrace _ _).
Qed.

(** The URL predicate of a policy lets a URL pass exactly when no entry
    of [ignoreUrls] equals it or matches it; and a request for a URL that
    an entry equals or matches is never sampled, whatever its timestamp
    and method, whatever the sampling rate, and whatever requests the
    policy has decided on before. *)
Theorem ignored_url_is_never_sampled
    (config : TracePolicyConfig RegExp) (now : Q)
    (reqs : list TraceOptions) (options : TraceOptions) :
  (urlFilter_shouldTrace RegExp String_match (url options)
     (urlFilter RegExp (new_policy config now)) = true <->
   ~ exists c, In c (ignoreUrls RegExp config) /\
               candidate_matches RegExp String_match (url options) c) /\
  ((exists c, In c (ignoreUrls RegExp config) /\
              candidate_matches RegExp String_match (url options) c) ->
   (shouldTrace options (policy_after reqs (new_policy config now))).1
     = false).
Proof.
  assert (urlFilter_shouldTrace RegExp String_match (url options)
            (urlFilter RegExp (new_policy config now)) = true <->
          ~ exists c, In c (ignoreUrls RegExp config) /\
                      candidate_matches RegExp String_match (url options) c)
    as Hchar.
  { cbn [TracePolicy_new urlFilter].
    destruct (ignoreUrls RegExp config) as [|c0 cs] eqn:Hurls.
    - cbn. split; [|done]. intros _ (c & [] & _).
    - cbn [length Nat.eqb urlFilter_shouldTrace].
      unfold URLFilter_shouldTrace. cbn [filterUrls].
      rewrite negb_true_iff, <- not_true_iff_false, existsb_exists.
      apply not_iff_compat. split.
      + intros (c & Hin & Hc). exists c. split; [exact Hin|].
        apply orb_true_iff in Hc as [Hc|Hc]; [left | by right].
        destruct c as [s|re]; [|done]. apply String.eqb_eq in Hc. by subst.
      + intros (c & Hin & [Hc|Hc]); exists c; (split; [exact Hin|]).
        * subst c. by rewrite String.eqb_refl.
        * by rewrite Hc, orb_true_r. }
  split; [exact Hchar|].
  intros Hdeny. rewrite shouldTrace_conjunction.
  destruct (policy_after_filters reqs (new_policy config now)) as [-> _].
  apply not_true_iff_false. intros Hall.
  apply andb_true_iff in Hall as [Hall _].
  apply andb_true_iff in Hall as [_ Hurl].
  by apply Hchar in Hurl.
Qed.

(** [TracePolicy.always()] samples every request and
    [TracePolicy.never()] samples none, whatever the request and
    whatever was decided before. *)
Theorem always_and_never (now : Q) (reqs : list TraceOptions)
    (options : TraceOptions) :
  (shouldTrace options
     (policy_after reqs (TracePolicy_always RegExp METHODS now))).1 = true /\
  (shouldTrace options
     (policy_after reqs (TracePolicy_never RegExp METHODS now))).1 = false.
Proof.
  rewrite !shouldTrace_conjunction, !policy_after_sampler.
  destruct (policy_after_filters reqs (TracePolicy_always RegExp METHODS now))
    as [-> ->].
  destruct (policy_after_filters reqs (TracePolicy_never RegExp METHODS now))
    as [-> ->].
  unfold TracePolicy_always, TracePolicy_never.
  cbn [TracePolicy_new sampler urlFilter methodFilter samplingRate
         ignoreUrls ignoreMethods length Nat.eqb].
  rewrite (sampler_for_zero 0 now) by reflexivity.
  rewrite (sampler_for_negative (-1) now) by reflexivity.
  by rewrite sampler_after_always, sampler_after_never.
Qed.

Lemma filterMethods_new deny x :
  In x (filterMethods (HTTPMethodFilter_new METHODS deny)) <->
  In x (map toLowerCase deny) /\ In x (map toLowerCase METHODS).
Proof using METHODS.
  clear String_match. unfold HTTPMethodFilter_new. cbn [filterMethods].
  rewrite List.filter_In, negb_true_iff, <- not_true_iff_false.
  rewrite indexOf_absent. split.
  - intros [H1 H2]. split; [exact H1|].
    destruct (In_dec String.string_dec x (map toLowerCase METHODS)); tauto.
  - intros [H1 H2]. split; [exact H1 | tauto].
Qed.

(** The method filter rejects a non-empty method exactly when its lower
    case is the lower case of an entry of the deny list and of a verb of
    [METHODS]: the case of letters does not matter, and an entry that is
    no verb of [METHODS] filters nothing. The same holds for the method
    predicate of a policy built from [ignoreMethods]. *)
Theorem method_filter_rejects_known_denied_verbs (deny : list string)
    (config : TracePolicyConfig RegExp) (now : Q) (m : string) :
  m <> "" ->
  (HTTPMethodFilter_shouldTrace (Some m) (HTTPMethodFilter_new METHODS deny)
     = false <->
   In (toLowerCase m) (map toLowerCase deny) /\
   In (toLowerCase m) (map toLowerCase METHODS)) /\
  (methodFilter_shouldTrace (Some m)
     (methodFilter RegExp (new_policy config now)) = false <->
   In (toLowerCase m) (map toLowerCase (ignoreMethods RegExp config)) /\
   In (toLowerCase m) (map toLowerCase METHODS)).
Proof using RegExp METHODS.
  clear String_match. intros Hm.
  assert (forall deny,
            HTTPMethodFilter_shouldTrace (Some m)
              (HTTPMethodFilter_new METHODS deny) = false <->
            In (toLowerCase m) (map toLowerCase deny) /\
            In (toLowerCase m) (map toLowerCase METHODS)) as Hchar.
  { intros deny'. unfold HTTPMethodFilter_shouldTrace. cbn [falsy_string].
    apply String.eqb_neq in Hm. rewrite Hm.
    rewrite <- not_true_iff_false, indexOf_absent, <- filterMethods_new.
    destruct (In_dec String.string_dec (toLowerCase m)
                (filterMethods (HTTPMethodFilter_new METHODS deny'))); tauto. }
  split; [apply Hchar|].
  cbn [TracePolicy_new methodFilter].
  destruct (ignoreMethods RegExp config) as [|d ds] eqn:Hdeny.
  - cbn. split; [done | by intros [[] _]].
  - cbn [length Nat.eqb methodFilter_shouldTrace]. apply Hchar.
Qed.


End Filters.

Lemma sampler_after_watermark ts s :
  0 <= traceWindow s ->
  exists s',
    sampler_after ts (SampleRate s) = SampleRate s' /\
    traceWindow s' = traceWindow s /\
    nextTraceStart s <= nextTraceStart s' /\
    forall t, nextTraceStart s <= t ->
              Forall (fun t' => t' + traceWindow s <= t) ts ->
              nextTraceStart s' <= t.
Proof.
  intros Hw. revert s Hw.
  induction ts as [|t0 ts IH]; intros s Hw; cbn [sampler_after].
  - exists s. repeat split; try done. apply Qle_refl.
  - cbn [sampler_shouldTrace]. unfold Sampler_shouldTrace.
    destruct (Qltb t0 (nextTraceStart s)) eqn:E; cbn [snd].
    + destruct (IH s Hw) as (s' & Hs' & Hw' & Hmono & Hbound).
      exists s'. repeat split; try done.
      intros t Ht Hall. apply Forall_cons in Hall as [_ Hall]. by apply Hbound.
    + apply Qltb_false in E.
      destruct (IH (mkSampler (traceWindow s) (t0 + traceWindow s)) Hw)
        as (s' & Hs' & Hw' & Hmono & Hbound).
      cbn [traceWindow nextTraceStart] in *.
      exists s'. repeat split; try done.
      * lra.
      * intros t Ht Hall. apply Forall_cons in Hall as [Ht0 Hall].
        by apply Hbound.
Qed.

(** The watermark only moves forward: after any sequence of decisions of
    a rate sampler it is not before where it was. *)
Theorem watermark_never_moves_back (R now : Q) (ts : list Q) :
  0 < R ->
  exists s',
    sampler_after ts (sampler_for R now) = SampleRate s' /\
    now <= nextTraceStart s'.
Proof.
  intros HR. rewrite (sampler_for_positive R now HR).
  destruct (sampler_after_watermark ts (Sampler_new R now))
    as (s' & Hs' & _ & Hmono & _).
  - unfold Sampler_new. cbn [traceWindow].
    destruct (Qltb 1000 R) eqn:E.
    + apply Qle_shift_div_l; lra.
    + apply Qle_shift_div_l; lra.
  - exists s'. split; [exact Hs'|]. exact Hmono.
Qed.

(** The limiter starves nobody: with a rate [R > 0], a request that
    comes no earlier than the policy was built and at least one window
    ([1000 / R] milliseconds, [1] above the ceiling) after every earlier
    request passes the rate sampler, however many of the earlier requests
    were sampled. *)
Theorem request_one_window_later_is_sampled (R now : Q) (ts : list Q)
    (t : Q) :
  0 < R ->
  now <= t ->
  Forall (fun t' => t' + traceWindow (Sampler_new R now) <= t) ts ->
  (sampler_shouldTrace t (sampler_after ts (sampler_for R now))).1 = true /\
  (R <= 1000 -> traceWindow (Sampler_new R now) = 1000 / R) /\
  (1000 < R -> traceWindow (Sampler_new R now) = 1000 / 1000).
Proof.
  intros HR Hnow Hall. split; [|split].
  - rewrite (sampler_for_positive R now HR).
    destruct (sampler_after_watermark ts (Sampler_new R now))
      as (s' & Hs' & _ & _ & Hbound).
    + unfold Sampler_new. cbn [traceWindow].
      destruct (Qltb 1000 R) eqn:E; apply Qle_shift_div_l; lra.
    + rewrite Hs'. cbn [sampler_shouldTrace]. unfold Sampler_shouldTrace.
      rewrite (proj2 (Qltb_false t (nextTraceStart s'))); [done|].
      apply Hbound; [|exact Hall]. unfold Sampler_new.
      by destruct (Qltb 1000 R).
  - intros Hle. by rewrite (Sampler_new_in_range R now Hle).
  - intros Hbig. by rewrite (Sampler_new_clamped R now Hbig).
Qed.

Lemma method_filter_rejects_known_denied_verbs_witness :
  "GET" <> "" /\
  HTTPMethodFilter_shouldTrace (Some "GET")
    (HTTPMethodFilter_new ["GET"; "POST"] ["get"; "bogus"]) = false.
Proof.
  split; [discriminate|].
  destruct (method_filter_rejects_known_denied_verbs unit ["GET"; "POST"]
              ["get"; "bogus"] (mkTracePolicyConfig unit 0 [] []) 0 "GET")
    as [Hfilter _]; [discriminate|].
  apply Hfilter. split; left; reflexivity.
Defined.


Lemma watermark_never_moves_back_witness :
  0 < 10 /\
  exists s', sampler_after [0%Q; 50%Q; 100%Q] (sampler_for 10 0) = SampleRate s' /\
             0 <= nextTraceStart s'.
Proof.
  split; [reflexivity|].
  apply (watermark_never_moves_back 10 0 [0%Q; 50%Q; 100%Q]). reflexivity.
Defined.

(** Ten per second: after requests at 0, 50 and 100 ms a request at 200
    ms is sampled. *)
Lemma request_one_window_later_is_sampled_witness :
  0 < 10 /\ 0 <= 200 /\
  (sampler_shouldTrace 200
     (sampler_after [0%Q; 50%Q; 100%Q] (sampler_for 10 0))).1 = true.
Proof.
  split; [reflexivity|]. split; [lra|].
  apply (request_one_window_later_is_sampled 10 0 [0%Q; 50%Q; 100%Q] 200);
    [reflexivity | lra |].
  repeat (apply List.Forall_cons; [by vm_compute|]).
  apply List.Forall_nil.
Defined.

End PolicyExtras.

(** ** More on the writers *)

Module WriterExtras.

Import TraceModel WriterConfig WriterRuns.

Local Open Scope list_scope.

Implicit Types (w : TraceWriter.Writer) (o : TraceWriterHttp.Writer).

(** With the project configured, [queueTrace_] appends and nothing
    else touches the configuration. *)
Lemma queueTrace_configured t metadata w :
  truthy (WriterConfig.projectId (TraceWriter.config_ w)) = true ->
  let project := js_string (WriterConfig.projectId (TraceWriter.config_ w)) in
  let w' := TraceWriter.queueTrace_ t metadata w in
  TraceWriter.config_ w' = TraceWriter.config_ w /\
  TraceWriter.buffer_ w' =
    TraceWriter.buffer_ w ++ [TraceWriter.set_project_id project t] /\
  TraceWriter.published w' = TraceWriter.published w /\
  TraceWriter.immediates w' =
    TraceWriter.immediates w ++
    (if (bufferSize (TraceWriter.config_ w)
         <=? Z.of_nat (length (TraceWriter.buffer_ w)) + 1)%Z
     then [project] else []).
Proof.
  intros Hp project w'. subst project w'.
  unfold TraceWriter.queueTrace_, TraceWriter.getProjectNumber.
  rewrite Hp. cbn -[Z.of_nat Z.leb]. rewrite length_app. cbn [length].
  replace (Z.of_nat (length (TraceWriter.buffer_ w) + 1))
    with (Z.of_nat (length (TraceWriter.buffer_ w)) + 1)%Z by lia.
  destruct (_ <=? _)%Z; cbn; by rewrite ?app_nil_r.
Qed.

Lemma flushBuffer_effect project w :
  TraceWriter.config_ (TraceWriter.flushBuffer_ project w)
    = TraceWriter.config_ w /\
  TraceWriter.buffer_ (TraceWriter.flushBuffer_ project w) = [] /\
  TraceWriter.immediates (TraceWriter.flushBuffer_ project w)
    = TraceWriter.immediates w /\
  exported (TraceWriter.flushBuffer_ project w)
    = exported w ++ TraceWriter.buffer_ w.
Proof.
  unfold TraceWriter.flushBuffer_, exported.
  destruct (TraceWriter.buffer_ w) as [|t ts] eqn:Hb; cbn [length Nat.eqb].
  - rewrite Hb. by rewrite app_nil_r.
  - cbn [TraceWriter.config_ TraceWriter.buffer_ TraceWriter.immediates
           TraceWriter.published].
    rewrite map_app, concat_app. cbn. by rewrite app_nil_r.
Qed.

Lemma step_effect s w :
  truthy (WriterConfig.projectId (TraceWriter.config_ w)) = true ->
  TraceWriter.config_ (step s w) = TraceWriter.config_ w /\
  exported (step s w) ++ TraceWriter.buffer_ (step s w) =
    exported w ++ TraceWriter.buffer_ w ++
    map (TraceWriter.set_project_id
           (js_string (WriterConfig.projectId (TraceWriter.config_ w))))
      (queued [s]).
Proof.
  intros Hp. destruct s as [t metadata|project|]; cbn [step queued omap].
  - destruct (queueTrace_configured t metadata w Hp) as (Hc & Hb & Hpub & _).
    split; [exact Hc|]. unfold exported. by rewrite Hb, Hpub.
  - destruct (flushBuffer_effect project w) as (Hc & Hb & _ & He).
    split; [exact Hc|]. rewrite Hb, He. cbn. by rewrite !app_nil_r.
  - unfold run_immediate.
    destruct (TraceWriter.immediates w) as [|project rest].
    { split; [done|]. cbn. by rewrite app_nil_r. }
    match goal with
    | |- context [TraceWriter.flushBuffer_ project ?w0] =>
        destruct (flushBuffer_effect project w0) as (Hc & Hb & _ & He)
    end.
    split; [exact Hc|]. rewrite Hb, He. cbn. by rewrite !app_nil_r.
Qed.

(** With the project configured, no trace is lost, duplicated or
    reordered between [queueTrace_] and the transport: through any
    sequence of enqueues, flushes and [setImmediate] callbacks, the
    batches handed to the transport followed by the buffer are what they
    were before, followed by the traces that were queued, in order, each
    stamped with the project. *)
Theorem queued_traces_are_exported_or_buffered (steps : list Step) w :
  truthy (WriterConfig.projectId (TraceWriter.config_ w)) = true ->
  exported (run steps w) ++ TraceWriter.buffer_ (run steps w) =
  exported w ++ TraceWriter.buffer_ w ++
  map (TraceWriter.set_project_id
         (js_string (WriterConfig.projectId (TraceWriter.config_ w))))
    (queued steps).
Proof.
  revert w. induction steps as [|s steps IH]; intros w Hp.
  - cbn. by rewrite app_nil_r.
  - destruct (step_effect s w Hp) as [Hc Hs].
    unfold run. cbn [foldl]. fold (run steps (step s w)).
    rewrite IH by by rewrite Hc.
    rewrite Hc. rewrite (app_assoc (exported (step s w))), Hs.
    change (s :: steps) with ([s] ++ steps).
    unfold queued. rewrite omap_app, map_app. by rewrite <- !app_assoc.
Qed.

Lemma queue_all_cons t ts metadata w :
  queue_all (t :: ts) metadata w =
  queue_all ts metadata (TraceWriter.queueTrace_ t metadata w).
Proof. reflexivity. Qed.

(** In a burst of [n] traces with the project configured, the gRPC
    writer keeps every trace (its buffer has no upper bound) and asks
    for a flush at each enqueue that leaves at least [bufferSize] traces
    in the buffer, and at no other: starting from [b] buffered traces that
    makes [max 0 (min n (b + n - bufferSize + 1))] flushes, all for the
    configured project. *)
Theorem burst_schedules_a_flush_per_full_enqueue (traces : list Trace)
    (metadata : Lookup) w :
  truthy (WriterConfig.projectId (TraceWriter.config_ w)) = true ->
  let n := Z.of_nat (length traces) in
  let b := Z.of_nat (length (TraceWriter.buffer_ w)) in
  let w' := queue_all traces metadata w in
  Z.of_nat (length (TraceWriter.buffer_ w')) = (b + n)%Z /\
  TraceWriter.immediates w' =
    TraceWriter.immediates w ++
    replicate
      (Z.to_nat (Z.max 0
                   (Z.min n (b + n - bufferSize (TraceWriter.config_ w) + 1))))
      (js_string (WriterConfig.projectId (TraceWriter.config_ w))).
Proof.
  revert w. induction traces as [|t ts IH]; intros w Hp n b w'.
  - subst n b w'. cbn [queue_all foldl length].
    split; [lia|].
    replace (Z.to_nat _) with 0%nat by lia. cbn. by rewrite app_nil_r.
  - subst n b w'. rewrite queue_all_cons.
    destruct (queueTrace_configured t metadata w Hp) as (Hc & Hb & _ & Hi).
    cbn zeta in Hc, Hb, Hi.
    assert (Z.of_nat (length (TraceWriter.buffer_
                                (TraceWriter.queueTrace_ t metadata w)))
            = Z.of_nat (length (TraceWriter.buffer_ w)) + 1)%Z as Hlen.
    { rewrite Hb, length_app. cbn [length]. lia. }
    destruct (IH (TraceWriter.queueTrace_ t metadata w)) as (IHb & IHi).
    { by rewrite Hc. }
    cbn zeta in IHb, IHi. rewrite Hc, Hlen in IHi. rewrite Hlen in IHb.
    cbn [length]. split; [lia|].
    rewrite IHi, Hi, <- app_assoc. f_equal.
    destruct (_ <=? _)%Z eqn:E.
    + apply Z.leb_le in E. change [?x] with (replicate 1 x).
      rewrite <- replicate_add. f_equal. lia.
    + apply Z.leb_gt in E. cbn [app]. f_equal. lia.
Qed.

(** What [queueTrace_] of the older writer does once the project is
    known: the trace is appended if the buffer is not over its size. *)
Lemma http_push_effect project t o :
  let pushed :=
    if (Z.of_nat (length (TraceWriterHttp.buffer_ o))
        <=? bufferSize (TraceWriterHttp.config_ o))%Z
    then
      TraceWriterHttp.logger LInfo "queued trace. new size:"
        [length (TraceWriterHttp.buffer_ o ++ [t])]
        (TraceWriterHttp.set_buffer (TraceWriterHttp.buffer_ o ++ [t]) o)
    else o in
  let o' :=
    if (bufferSize (TraceWriterHttp.config_ pushed)
        <=? Z.of_nat (length (TraceWriterHttp.buffer_ pushed)))%Z
       && publishImmediately (TraceWriterHttp.config_ pushed)
    then TraceWriterHttp.setImmediate_flush project pushed
    else pushed in
  TraceWriterHttp.config_ o' = TraceWriterHttp.config_ o /\
  TraceWriterHttp.buffer_ o' =
    if (Z.of_nat (length (TraceWriterHttp.buffer_ o))
        <=? bufferSize (TraceWriterHttp.config_ o))%Z
    then TraceWriterHttp.buffer_ o ++ [t]
    else TraceWriterHttp.buffer_ o.
Proof.
  intros pushed o'. subst o'.
  assert (TraceWriterHttp.config_ pushed = TraceWriterHttp.config_ o /\
          TraceWriterHttp.buffer_ pushed =
            if (Z.of_nat (length (TraceWriterHttp.buffer_ o))
                <=? bufferSize (TraceWriterHttp.config_ o))%Z
            then TraceWriterHttp.buffer_ o ++ [t]
            else TraceWriterHttp.buffer_ o) as [Hc Hb].
  { subst pushed. by destruct (_ <=? _)%Z. }
  destruct (_ && _);
    [unfold TraceWriterHttp.setImmediate_flush;
     cbn [TraceWriterHttp.config_ TraceWriterHttp.buffer_]|];
    by split.
Qed.

Lemma queueTrace_http_effect t metadata o :
  let o' := TraceWriterHttp.queueTrace_ t metadata o in
  bufferSize (TraceWriterHttp.config_ o')
    = bufferSize (TraceWriterHttp.config_ o) /\
  (TraceWriterHttp.buffer_ o' = TraceWriterHttp.buffer_ o \/
   (Z.of_nat (length (TraceWriterHttp.buffer_ o))
      <= bufferSize (TraceWriterHttp.config_ o))%Z /\
   exists t', TraceWriterHttp.buffer_ o' = TraceWriterHttp.buffer_ o ++ [t']) /\
  (truthy (WriterConfig.projectId (TraceWriterHttp.config_ o)) = true ->
   TraceWriterHttp.config_ o' = TraceWriterHttp.config_ o /\
   TraceWriterHttp.buffer_ o' =
     if (Z.of_nat (length (TraceWriterHttp.buffer_ o))
         <=? bufferSize (TraceWriterHttp.config_ o))%Z
     then TraceWriterHttp.buffer_ o ++
          [TraceWriterHttp.set_projectId
             (js_string (WriterConfig.projectId (TraceWriterHttp.config_ o)))
             t]
     else TraceWriterHttp.buffer_ o).
Proof.
  cbn zeta.
  unfold TraceWriterHttp.queueTrace_, TraceWriterHttp.getProjectNumber.
  destruct (truthy _) eqn:Hp.
  - cbn beta iota zeta.
    match goal with
    | |- bufferSize (TraceWriterHttp.config_ ?X) = _ /\ _ => set (o' := X)
    end.
    pose (t' := TraceWriterHttp.set_projectId
                  (js_string
                     (WriterConfig.projectId (TraceWriterHttp.config_ o))) t).
    assert (TraceWriterHttp.config_ o' = TraceWriterHttp.config_ o /\
            TraceWriterHttp.buffer_ o' =
              if (Z.of_nat (length (TraceWriterHttp.buffer_ o))
                  <=? bufferSize (TraceWriterHttp.config_ o))%Z
              then TraceWriterHttp.buffer_ o ++ [t']
              else TraceWriterHttp.buffer_ o) as [Hc Hb]
      by exact (http_push_effect
                  (js_string
                     (WriterConfig.projectId (TraceWriterHttp.config_ o)))
                  t' o).
    clearbody o'. split; [by rewrite Hc|]. split; [|done].
    rewrite Hb. destruct (_ <=? _)%Z eqn:E; [|by left].
    apply Z.leb_le in E. right. split; [exact E | by eexists].
  - destruct metadata as [err|project].
    + split; [done|]. split; [by left | done].
    + cbn beta iota zeta.
      match goal with
      | |- bufferSize (TraceWriterHttp.config_ ?X) = _ /\ _ => set (o' := X)
      end.
      pose (o0 := TraceWriterHttp.set_config
                    (WriterConfig.set_projectId project
                       (TraceWriterHttp.config_ o)) o).
      pose (t' := TraceWriterHttp.set_projectId project t).
      assert (TraceWriterHttp.config_ o' = TraceWriterHttp.config_ o0 /\
              TraceWriterHttp.buffer_ o' =
                if (Z.of_nat (length (TraceWriterHttp.buffer_ o))
                    <=? bufferSize (TraceWriterHttp.config_ o))%Z
                then TraceWriterHttp.buffer_ o ++ [t']
                else TraceWriterHttp.buffer_ o) as [Hc Hb]
        by exact (http_push_effect project t' o0).
      clearbody o'. split; [by rewrite Hc|]. split; [|done].
      rewrite Hb. destruct (_ <=? _)%Z eqn:E; [|by left].
      apply Z.leb_le in E. right. split; [exact E | by eexists].
Qed.

Lemma flushBuffer_http_effect project o :
  TraceWriterHttp.config_ (TraceWriterHttp.flushBuffer_ project o)
    = TraceWriterHttp.config_ o /\
  TraceWriterHttp.buffer_ (TraceWriterHttp.flushBuffer_ project o) = [].
Proof.
  unfold TraceWriterHttp.flushBuffer_.
  destruct (TraceWriterHttp.buffer_ o) as [|t ts] eqn:Hb; cbn; by rewrite ?Hb.
Qed.

Lemma step_http_length s o :
  bufferSize (TraceWriterHttp.config_ (step_http s o))
    = bufferSize (TraceWriterHttp.config_ o) /\
  (Z.of_nat (length (TraceWriterHttp.buffer_ (step_http s o)))
   <= Z.max (Z.of_nat (length (TraceWriterHttp.buffer_ o)))
        (bufferSize (TraceWriterHttp.config_ o) + 1))%Z.
Proof.
  destruct s as [t metadata|project|]; cbn [step_http].
  - destruct (queueTrace_http_effect t metadata o)
      as (Hc & [Hl|[Hroom [t' Hl]]] & _);
      cbn zeta in *; (split; [exact Hc|]); rewrite Hl, ?length_app;
      cbn [length]; lia.
  - destruct (flushBuffer_http_effect project o) as (Hc & Hb).
    rewrite Hc, Hb. cbn. split; [done | lia].
  - destruct (TraceWriterHttp.immediates o) as [|project rest];
      [split; [done | lia]|].
    match goal with
    | |- context [TraceWriterHttp.flushBuffer_ project ?o0] =>
        destruct (flushBuffer_http_effect project o0) as (Hc & Hb)
    end.
    rewrite Hc, Hb. cbn. split; [done | lia].
Qed.

(** The older writer never holds more than [bufferSize + 1] traces, one
    more than [bufferSize], unless it held more to begin with: through
    any sequence of enqueues, flushes and [setImmediate] callbacks,
    whatever the project lookups answer. In a burst of [n] traces with the
    project configured it keeps the first ones up to that bound and
    drops the others. *)
Theorem old_writer_holds_at_most_bufferSize_plus_one (steps : list Step)
    (traces : list Trace) (metadata : Lookup) o :
  (Z.of_nat (length (TraceWriterHttp.buffer_ (run_http steps o)))
   <= Z.max (Z.of_nat (length (TraceWriterHttp.buffer_ o)))
        (bufferSize (TraceWriterHttp.config_ o) + 1))%Z /\
  (truthy (WriterConfig.projectId (TraceWriterHttp.config_ o)) = true ->
   Z.of_nat (length (TraceWriterHttp.buffer_
                       (queue_all_http traces metadata o))) =
   Z.max (Z.of_nat (length (TraceWriterHttp.buffer_ o)))
     (Z.min (Z.of_nat (length (TraceWriterHttp.buffer_ o))
             + Z.of_nat (length traces))
        (bufferSize (TraceWriterHttp.config_ o) + 1)))%Z.
Proof.
  split.
  - revert o. induction steps as [|s steps IH]; intros o; [cbn; lia|].
    unfold run_http. cbn [foldl]. fold (run_http steps (step_http s o)).
    destruct (step_http_length s o) as [Hc Hl].
    specialize (IH (step_http s o)). rewrite Hc in IH. lia.
  - revert o. induction traces as [|t ts IH]; intros o Hp;
      [cbn [queue_all_http foldl length]; lia|].
    unfold queue_all_http. cbn [foldl].
    fold (queue_all_http ts metadata (TraceWriterHttp.queueTrace_ t metadata o)).
    destruct (queueTrace_http_effect t metadata o) as (_ & _ & Hcfg).
    destruct (Hcfg Hp) as [Hc Hb]. cbn zeta in Hc, Hb.
    rewrite IH by by rewrite Hc. rewrite Hc, Hb. cbn [length].
    destruct (_ <=? _)%Z eqn:E;
      [apply Z.leb_le in E; rewrite length_app; cbn [length]
      | apply Z.leb_gt in E]; lia.
Qed.

(** A project that the metadata service has once delivered is kept in
    the configuration: from then on both writers answer
    [getProjectNumber] with it whatever the service would say, so the
    gRPC writer buffers a later trace even when the lookup would fail. A
    failed lookup leaves nothing behind: the next enqueue asks again and,
    if answered, buffers its trace. *)
Theorem resolved_project_is_remembered (t1 t2 : Trace) (project err : string)
    (metadata : Lookup) w o :
  truthy (WriterConfig.projectId (TraceWriter.config_ w)) = false ->
  truthy (WriterConfig.projectId (TraceWriterHttp.config_ o)) = false ->
  project <> "" ->
  (TraceWriter.getProjectNumber metadata
     (TraceWriter.getProjectNumber (LookupProject project) w).2).1
    = LookupProject project /\
  (TraceWriterHttp.getProjectNumber metadata
     (TraceWriterHttp.getProjectNumber (LookupProject project) o).2).1
    = LookupProject project /\
  TraceWriter.buffer_
    (TraceWriter.queueTrace_ t2 metadata
       (TraceWriter.queueTrace_ t1 (LookupProject project) w)) =
    TraceWriter.buffer_ w ++
      [TraceWriter.set_project_id project t1;
       TraceWriter.set_project_id project t2] /\
  TraceWriter.buffer_
    (TraceWriter.queueTrace_ t2 (LookupProject project)
       (TraceWriter.queueTrace_ t1 (LookupError err) w)) =
    TraceWriter.buffer_ w ++ [TraceWriter.set_project_id project t2].
Proof.
  intros Hw Ho Hproject.
  assert (truthy (Some project) = true) as Htruthy.
  { cbn. by apply negb_true_iff, String.eqb_neq. }
  split; [|split; [|split]].
  - unfold TraceWriter.getProjectNumber at 2. rewrite Hw. cbn [snd].
    unfold TraceWriter.getProjectNumber. cbn.
    by rewrite (proj2 (String.eqb_neq project "") Hproject).
  - unfold TraceWriterHttp.getProjectNumber at 2. rewrite Ho. cbn [snd].
    unfold TraceWriterHttp.getProjectNumber. cbn.
    by rewrite (proj2 (String.eqb_neq project "") Hproject).
  - assert (TraceWriter.config_
              (TraceWriter.queueTrace_ t1 (LookupProject project) w)
            = WriterConfig.set_projectId project (TraceWriter.config_ w) /\
            TraceWriter.buffer_
              (TraceWriter.queueTrace_ t1 (LookupProject project) w)
            = TraceWriter.buffer_ w ++ [TraceWriter.set_project_id project t1])
      as [Hc Hb].
    { unfold TraceWriter.queueTrace_, TraceWriter.getProjectNumber.
      rewrite Hw. cbn -[Z.of_nat Z.leb]. by destruct (_ <=? _)%Z. }
    destruct (queueTrace_configured t2 metadata
                (TraceWriter.queueTrace_ t1 (LookupProject project) w))
      as (_ & Hb2 & _).
    { by rewrite Hc. }
    cbn zeta in Hb2. rewrite Hb2, Hc, Hb. cbn. by rewrite <- app_assoc.
  - assert (TraceWriter.config_
              (TraceWriter.queueTrace_ t1 (LookupError err) w)
            = TraceWriter.config_ w /\
            TraceWriter.buffer_
              (TraceWriter.queueTrace_ t1 (LookupError err) w)
            = TraceWriter.buffer_ w) as [Hc Hb].
    { unfold TraceWriter.queueTrace_, TraceWriter.getProjectNumber.
      by rewrite Hw. }
    unfold TraceWriter.queueTrace_ at 1, TraceWriter.getProjectNumber.
    rewrite Hc, Hw. cbn -[Z.of_nat Z.leb]. rewrite Hb.
    by destruct (_ <=? _)%Z.
Qed.

(** A flush leaves the buffer empty and hands its whole content to the
    transport as one batch, in order; a flush of an empty buffer sends
    nothing, so that a second flush right after the first changes
    nothing. The same holds for the older writer. *)
Theorem flush_empties_the_buffer_once (p1 p2 : string) w o :
  (TraceWriter.buffer_ (TraceWriter.flushBuffer_ p1 w) = [] /\
   TraceWriter.published (TraceWriter.flushBuffer_ p1 w) =
     TraceWriter.published w ++
     (if decide (TraceWriter.buffer_ w = []) then []
      else [(p1, TraceWriter.buffer_ w)]) /\
   TraceWriter.flushBuffer_ p2 (TraceWriter.flushBuffer_ p1 w)
     = TraceWriter.flushBuffer_ p1 w) /\
  (TraceWriterHttp.buffer_ (TraceWriterHttp.flushBuffer_ p1 o) = [] /\
   TraceWriterHttp.published (TraceWriterHttp.flushBuffer_ p1 o) =
     TraceWriterHttp.published o ++
     (if decide (TraceWriterHttp.buffer_ o = []) then []
      else [(p1, TraceWriterHttp.buffer_ o)]) /\
   TraceWriterHttp.flushBuffer_ p2 (TraceWriterHttp.flushBuffer_ p1 o)
     = TraceWriterHttp.flushBuffer_ p1 o).
Proof.
  split.
  - unfold TraceWriter.flushBuffer_.
    destruct (TraceWriter.buffer_ w) as [|t ts] eqn:Hb; cbn [length Nat.eqb].
    + rewrite Hb. cbn. by rewrite app_nil_r.
    + by cbn.
  - unfold TraceWriterHttp.flushBuffer_.
    destruct (TraceWriterHttp.buffer_ o) as [|t ts] eqn:Hb;
      cbn [length Nat.eqb].
    + rewrite Hb. cbn. by rewrite app_nil_r.
    + by cbn.
Qed.

(** Two traces queued, a flush, a third trace: the first two are
    exported, the third is buffered. *)
Lemma queued_traces_are_exported_or_buffered_witness :
  truthy (WriterConfig.projectId
            (TraceWriter.config_ (Samples.grpc_writer Samples.with_project)))
    = true /\
  let steps :=
    [Queue Samples.sample_trace (LookupError "down");
     Queue Samples.sample_trace (LookupError "down");
     Flush "my-project";
     Queue Samples.sample_trace (LookupError "down")] in
  length (exported (run steps (Samples.grpc_writer Samples.with_project))
          ++ TraceWriter.buffer_
               (run steps (Samples.grpc_writer Samples.with_project)))
  = 3%nat.
Proof.
  split; [reflexivity|]. cbv zeta.
  rewrite (queued_traces_are_exported_or_buffered _
             (Samples.grpc_writer Samples.with_project) eq_refl).
  reflexivity.
Defined.

(** A size of two and a burst of three traces into an empty buffer: the
    second and the third enqueue each ask for a flush. *)
Lemma burst_schedules_a_flush_per_full_enqueue_witness :
  let w :=
    TraceWriter.mkWriter
      (mkConfig (Some "my-project") 2 false None None None None None)
      [] false [] [] [] 0 in
  truthy (WriterConfig.projectId (TraceWriter.config_ w)) = true /\
  TraceWriter.immediates
    (queue_all [Samples.sample_trace; Samples.sample_trace;
                Samples.sample_trace] (LookupError "down") w)
  = ["my-project"; "my-project"].
Proof.
  cbv zeta. split; [reflexivity|].
  destruct (burst_schedules_a_flush_per_full_enqueue
              [Samples.sample_trace; Samples.sample_trace;
               Samples.sample_trace] (LookupError "down")
              (TraceWriter.mkWriter
                 (mkConfig (Some "my-project") 2 false None None None None
                    None) [] false [] [] [] 0) eq_refl) as [_ Himm].
  cbv zeta in Himm. rewrite Himm. reflexivity.
Defined.

Lemma resolved_project_is_remembered_witness :
  truthy (WriterConfig.projectId
            (TraceWriter.config_ (Samples.grpc_writer Samples.no_project)))
    = false /\
  truthy (WriterConfig.projectId
            (TraceWriterHttp.config_ (Samples.http_writer Samples.no_project)))
    = false /\
  "my-project" <> "" /\
  length
    (TraceWriter.buffer_
       (TraceWriter.queueTrace_ Samples.sample_trace (LookupError "down")
          (TraceWriter.queueTrace_ Samples.sample_trace
             (LookupProject "my-project")
             (Samples.grpc_writer Samples.no_project)))) = 2%nat.
Proof.
  split; [reflexivity|]. split; [reflexivity|]. split; [discriminate|].
  destruct (resolved_project_is_remembered Samples.sample_trace
              Samples.sample_trace "my-project" "down" (LookupError "down")
              (Samples.grpc_writer Samples.no_project)
              (Samples.http_writer Samples.no_project) eq_refl eq_refl)
    as (_ & _ & Hbuf & _); [discriminate|].
  rewrite Hbuf. reflexivity.
Defined.

Section Timers.

Import WriterTimers.

Variable flushDelaySeconds : Q.

Local Abbreviation TraceWriter_new := (TraceWriter_new flushDelaySeconds).
Local Abbreviation TraceWriterHttp_new :=
  (TraceWriterHttp_new flushDelaySeconds).
Local Abbreviation run_ticks := (run_ticks flushDelaySeconds).
Local Abbreviation run_ticks_http := (run_ticks_http flushDelaySeconds).
Local Abbreviation armed project :=
  [(project, (flushDelaySeconds * 1000)%Q)].

Lemma tick_timers (t : Tick) (s : Scheduled) (expected : list (string * Q)) :
  (expected = [] \/ exists project, expected = armed project) ->
  timers s = expected ->
  timers (tick flushDelaySeconds t s) = expected.
Proof.
  intros Hshape Hs. destruct t as [|st]; cbn [tick]; [|exact Hs].
  rewrite Hs. destruct Hshape as [->|[project ->]]; [exact Hs | done].
Qed.

Lemma tick_http_timers (t : Tick) (s : ScheduledHttp)
    (expected : list (string * Q)) :
  (expected = [] \/ exists project, expected = armed project) ->
  timers_http s = expected ->
  timers_http (tick_http flushDelaySeconds t s) = expected.
Proof.
  intros Hshape Hs. destruct t as [|st]; cbn [tick_http]; [|exact Hs].
  rewrite Hs. destruct Hshape as [->|[project ->]]; [exact Hs | done].
Qed.

(** Periodic flushing begins at construction or never: a writer that
    knows its project when it is built (from the configuration or from a
    lookup that succeeds then) arms one timer, for that project and
    [flushDelaySeconds * 1000] milliseconds, and every firing arms the
    next, so that exactly one timer is pending at all times; a writer
    whose lookup fails at construction arms none, and none is armed
    later, whatever is queued or flushed and even if a later lookup
    succeeds. This holds for both writers. *)
Theorem periodic_flush_begins_at_construction_or_never (config : Config)
    (metadata : Lookup) (auth_error : option string) (ticks : list Tick) :
  let pending :=
    match project_at_construction config metadata with
    | Some project => armed project
    | None => []
    end in
  timers (run_ticks ticks (TraceWriter_new config metadata auth_error))
    = pending /\
  timers_http (run_ticks_http ticks (TraceWriterHttp_new config metadata))
    = pending.
Proof.
  cbn zeta.
  set (pending := match project_at_construction config metadata with
                  | Some project => armed project
                  | None => []
                  end).
  assert (pending = [] \/ exists project, pending = armed project) as Hshape.
  { subst pending. destruct (project_at_construction config metadata);
      [right; by eexists | by left]. }
  assert (timers (TraceWriter_new config metadata auth_error) = pending /\
          timers_http (TraceWriterHttp_new config metadata) = pending)
    as [H0 H0'].
  { subst pending.
    unfold WriterTimers.TraceWriter_new, WriterTimers.TraceWriterHttp_new,
      project_at_construction, TraceWriter.getProjectNumber,
      TraceWriterHttp.getProjectNumber.
    cbn [TraceWriter.config_ TraceWriterHttp.config_].
    destruct (truthy (WriterConfig.projectId config));
      [|destruct metadata as [err|project]]; by destruct auth_error. }
  split.
  - revert H0. generalize (TraceWriter_new config metadata auth_error).
    induction ticks as [|t ticks IH]; intros s Hs; [exact Hs|].
    unfold WriterTimers.run_ticks. cbn [foldl].
    apply IH. by apply tick_timers.
  - revert H0'. generalize (TraceWriterHttp_new config metadata).
    induction ticks as [|t ticks IH]; intros s Hs; [exact Hs|].
    unfold WriterTimers.run_ticks_http. cbn [foldl].
    apply IH. by apply tick_http_timers.
Qed.

End Timers.

End WriterExtras.

(** ** The module's entry point *)

Module IndexProperties.

Import TraceModel AgentIndex.

Local Open Scope list_scope.

Section Host.

Variable packageNameFromPath : string -> option string.
Variable filesLoadedBeforeTrace : list string.
Variable defaults : AgentConfig.
Variable env : gmap string string.
Variable parseInt : string -> option Z.
Variable JSON_stringify : list string -> string.
Variable LEVELS_length : Z.
Variable node_supported : bool.
Variable TraceAgent : Type.
Variable TraceAgent_get : AgentConfig -> Z -> TraceAgent.
Variable isRunning : TraceAgent -> bool.

Local Abbreviation note_module := (note_module packageNameFromPath).
Local Abbreviation modulesLoadedBeforeTrace :=
  (modulesLoadedBeforeTrace packageNameFromPath filesLoadedBeforeTrace).
Local Abbreviation initConfig := (initConfig defaults env parseInt).
Local Abbreviation State := (State TraceAgent).
Local Abbreviation isActive := (isActive TraceAgent isRunning).
Local Abbreviation clamp_logLevel := (clamp_logLevel LEVELS_length).
Local Abbreviation start :=
  (start packageNameFromPath filesLoadedBeforeTrace defaults env parseInt
     JSON_stringify LEVELS_length node_supported TraceAgent TraceAgent_get
     isRunning).
Local Abbreviation stop := (stop TraceAgent isRunning).
Local Abbreviation get := (get TraceAgent isRunning).
Local Abbreviation metadata_callback :=
  (metadata_callback TraceAgent isRunning).

(** A package name that index.js takes note of. *)
Local Abbreviation noteworthy x :=
  (x <> "" /\ x <> "@google/cloud-trace").

Lemma foldl_note_module (files : list string) (acc : list string) :
  NoDup acc ->
  NoDup (foldl note_module acc files) /\
  forall x,
    In x (foldl note_module acc files) <->
    In x acc \/
    (noteworthy x /\
     exists f, In f files /\ packageNameFromPath f = Some x).
Proof.
  revert acc. induction files as [|f files IH]; intros acc Hnd; cbn [foldl].
  - split; [exact Hnd|]. intros x. split; [by left|].
    intros [?|(_ & f & [] & _)]; done.
  - assert (NoDup (note_module acc f) /\
            forall x, In x (note_module acc f) <->
                      In x acc \/
                      (noteworthy x /\ packageNameFromPath f = Some x))
      as [Hnd' Hin'].
    { unfold AgentIndex.note_module.
      destruct (packageNameFromPath f) as [name|] eqn:Hname.
      - destruct (negb (String.eqb name "")) eqn:E1; cbn [andb].
        + destruct (negb (String.eqb name "@google/cloud-trace")) eqn:E2;
            cbn [andb].
          * apply negb_true_iff, String.eqb_neq in E1, E2.
            destruct (TracingPolicy.indexOf acc name =? -1)%Z eqn:E3.
            -- apply PolicyExtras.indexOf_absent in E3.
               split.
               ++ apply NoDup_app. split; [exact Hnd|]. split.
                  ** intros y Hy Hy'. apply list_elem_of_In in Hy.
                     apply list_elem_of_singleton in Hy'. by subst.
                  ** apply NoDup_singleton.
               ++ intros x. rewrite in_app_iff. cbn [In]. split.
                  ** intros [?|[<-|[]]]; [by left | by right].
                  ** intros [?|(_ & [= ->])]; [by left | right; by left].
            -- split; [exact Hnd|]. intros x. split; [by left|].
               intros [?|(_ & [= ->])]; [done|].
               destruct (In_dec String.string_dec x acc) as [?|Hnot]; [done|].
               apply PolicyExtras.indexOf_absent in Hnot. congruence.
          * apply negb_false_iff, String.eqb_eq in E2.
            split; [exact Hnd|]. intros x. split; [by left|].
            intros [?|((_ & Hx) & [= ->])]; done.
        + apply negb_false_iff, String.eqb_eq in E1.
          split; [exact Hnd|]. intros x. split; [by left|].
          intros [?|((Hx & _) & [= ->])]; done.
      - split; [exact Hnd|]. intros x. split; [by left|].
        intros [?|(_ & ?)]; done. }
    destruct (IH (note_module acc f) Hnd') as [Hnd'' Hin''].
    split; [exact Hnd''|]. intros x. rewrite Hin'', Hin'. cbn [In]. split.
    + intros [[?|(Hx & Hf)]|(Hx & f' & Hf' & Hp)].
      * by left.
      * right. split; [exact Hx|]. exists f. split; [by left | exact Hf].
      * right. split; [exact Hx|]. exists f'. split; [by right | exact Hp].
    + intros [?|(Hx & f' & [<-|Hf'] & Hp)].
      * left. by left.
      * left. right. by split.
      * right. split; [exact Hx|]. by exists f'.
Qed.

(** [modulesLoadedBeforeTrace] lists each package once: it holds exactly
    the package names of the files loaded before the agent, except the
    empty name and the agent's own package, and no name twice. *)
Theorem modules_loaded_before_trace_are_distinct (x : string) :
  NoDup modulesLoadedBeforeTrace /\
  (In x modulesLoadedBeforeTrace <->
   noteworthy x /\
   exists f, In f filesLoadedBeforeTrace /\ packageNameFromPath f = Some x).
Proof.
  destruct (foldl_note_module filesLoadedBeforeTrace [] (NoDup_nil_2))
    as [Hnd Hin].
  split; [exact Hnd|].
  unfold AgentIndex.modulesLoadedBeforeTrace. rewrite Hin. cbn [In]. tauto.
Qed.

Lemma In_onUncaughtExceptionValues x :
  (TracingPolicy.indexOf onUncaughtExceptionValues x =? -1)%Z = false <->
  In x onUncaughtExceptionValues.
Proof.
  rewrite <- not_true_iff_false, PolicyExtras.indexOf_absent.
  destruct (In_dec String.string_dec x onUncaughtExceptionValues); tauto.
Qed.

(** The ways [start] can go, after [initConfig]. *)
Ltac start_cases pc st :=
  unfold AgentIndex.start;
  destruct (initConfig pc) as [config warnings];
  cbn [fst snd];
  change (AgentIndex.isActive TraceAgent isRunning
            (mkState TraceAgent (agent TraceAgent st) (logs TraceAgent st)
               (console TraceAgent st ++ warnings) (lookups TraceAgent st)
               (stopped TraceAgent st)))
    with (isActive st);
  destruct (isActive st) eqn:Hactive;
  destruct (forceNewAgent_ config) eqn:Hforce;
  destruct (enabled config) eqn:Henabled;
  destruct node_supported eqn:Hnode;
  cbn [andb negb];
  destruct (TracingPolicy.indexOf onUncaughtExceptionValues
              (onUncaughtException config) =? -1)%Z eqn:Hvalid;
  first [ apply In_onUncaughtExceptionValues in Hvalid
        | apply PolicyExtras.indexOf_absent in Hvalid ];
  destruct (projectId config) as [[s|other b]|] eqn:Hpid;
  try destruct (pid_truthy _);
  try destruct (0 <? length modulesLoadedBeforeTrace)%nat;
  cbn [fst snd agent logs console lookups stopped log_call].

(** [start] puts a new agent in place only after every check has
    passed: the agent is not active or [forceNewAgent_] is set, the
    configuration is enabled, Node is supported, [onUncaughtException] is
    one of the three values, and the project id is absent or a string. In
    that case it returns, the agent is the one [trace-agent.get] builds
    for this configuration, a metadata lookup is begun exactly when the
    project id is absent, and an agent that was replaced is not told to
    stop. In every other case the agent stays the one it was. *)
Theorem start_installs_agent_only_after_all_checks (pc : ProjectConfig)
    (st : State) :
  let config := (initConfig pc).1 in
  let checks :=
    (isActive st = false \/ forceNewAgent_ config = true) /\
    enabled config = true /\
    node_supported = true /\
    In (onUncaughtException config) onUncaughtExceptionValues /\
    (projectId config = None \/ exists s, projectId config = Some (PidString s)) in
  (checks ->
   (start pc st).1 = Return tt /\
   agent TraceAgent (start pc st).2 =
     Some (TraceAgent_get config (clamp_logLevel (logLevel config))) /\
   stopped TraceAgent (start pc st).2 = stopped TraceAgent st /\
   lookups TraceAgent (start pc st).2 =
     lookups TraceAgent st ++
     (match projectId config with None => [config] | Some _ => [] end)) /\
  (~ checks ->
   agent TraceAgent (start pc st).2 = agent TraceAgent st /\
   lookups TraceAgent (start pc st).2 = lookups TraceAgent st).
Proof.
  cbn zeta. start_cases pc st;
    (split;
     [ intros (Hgo & He & Hn & Hv & Hp);
       try discriminate; try done;
       try (by destruct Hgo);
       try (by destruct Hp as [?|[? ?]]);
       rewrite ?app_nil_r; done
     | intros Hnot; try done; exfalso; apply Hnot;
       repeat split; eauto ]).
Qed.

(** [start] throws in two cases only: a second start of an active agent
    without [forceNewAgent_], before anything is logged, and an
    [onUncaughtException] that is none of the three values, after an
    error naming them has been logged. Either way the agent stays the one
    it was and no metadata lookup is begun. An active agent without
    [forceNewAgent_] always makes [start] throw. *)
Theorem start_throws_for_two_reasons_only (pc : ProjectConfig) (st : State)
    (e : string) :
  let config := (initConfig pc).1 in
  ((start pc st).1 = Throw e ->
   agent TraceAgent (start pc st).2 = agent TraceAgent st /\
   lookups TraceAgent (start pc st).2 = lookups TraceAgent st /\
   ((e = "Cannot call start on an already started agent." /\
     isActive st = true /\ forceNewAgent_ config = false /\
     logs TraceAgent (start pc st).2 = logs TraceAgent st) \/
    (e = "Invalid value for onUncaughtException configuration." /\
     ~ In (onUncaughtException config) onUncaughtExceptionValues /\
     exists earlier,
       logs TraceAgent (start pc st).2 =
       earlier ++
       [mkLogCall (clamp_logLevel (logLevel config)) LError
          "The value of onUncaughtException should be one of "
          onUncaughtExceptionValues]))) /\
  (isActive st = true -> forceNewAgent_ config = false ->
   (start pc st).1 = Throw "Cannot call start on an already started agent.").
Proof.
  cbn zeta. start_cases pc st;
    (split; [intros Hthrow | intros Ha Hf]);
    try discriminate; try done;
    injection Hthrow as <-;
    (split; [done|]); (split; [done|]);
    first [ left; by repeat split
          | right; split; [done|]; split; [done|]; by eexists ].
Qed.

Lemma clamp_logLevel_range (l : Z) :
  (0 < LEVELS_length)%Z ->
  (0 <= clamp_logLevel l < LEVELS_length)%Z.
Proof.
  intros Hlen. unfold AgentIndex.clamp_logLevel.
  destruct (l <? 0)%Z eqn:E1; [lia|]. apply Z.ltb_ge in E1.
  destruct (LEVELS_length <=? l)%Z eqn:E2; [lia|]. apply Z.leb_gt in E2. lia.
Qed.

(** Whatever [logLevel] the configuration or the environment asks for,
    negative or beyond the last level, every logger that [start] creates
    gets a level that exists: each call it logs is on a logger whose level
    index lies in [LEVELS], a level in range being used as it is. *)
Theorem start_logs_at_an_existing_level (pc : ProjectConfig) (st : State)
    (c : LogCall) (l : Z) :
  (0 < LEVELS_length)%Z ->
  (In c (logs TraceAgent (start pc st).2) ->
   In c (logs TraceAgent st) \/
   (logger_level c = clamp_logLevel (logLevel (initConfig pc).1) /\
    (0 <= logger_level c < LEVELS_length)%Z)) /\
  ((0 <= l < LEVELS_length)%Z -> clamp_logLevel l = l) /\
  ((l < 0)%Z -> clamp_logLevel l = 0%Z) /\
  ((LEVELS_length <= l)%Z -> clamp_logLevel l = (LEVELS_length - 1)%Z).
Proof.
  intros Hlen. split; [|split; [|split]].
  - pose proof (clamp_logLevel_range (logLevel (initConfig pc).1) Hlen)
      as Hrange.
    revert Hrange. start_cases pc st; intros Hrange Hin;
      rewrite ?in_app_iff in Hin; cbn [In] in Hin;
      repeat match goal with
             | H : _ \/ _ |- _ => destruct H as [H|H]
             end;
      try done; try (by left); subst c; right; by split.
  - intros Hl. unfold AgentIndex.clamp_logLevel.
    destruct (l <? 0)%Z eqn:E1; [apply Z.ltb_lt in E1; lia|].
    destruct (LEVELS_length <=? l)%Z eqn:E2; [apply Z.leb_le in E2; lia|].
    done.
  - intros Hl. unfold AgentIndex.clamp_logLevel.
    by rewrite (proj2 (Z.ltb_lt l 0) Hl).
  - intros Hl. unfold AgentIndex.clamp_logLevel.
    destruct (l <? 0)%Z eqn:E1; [apply Z.ltb_lt in E1; lia|].
    by rewrite (proj2 (Z.leb_le LEVELS_length l) Hl).
Qed.

(** [stop] leaves no active agent: afterwards [isActive] is false and
    [get] throws; an agent that was active is told to stop once and gives
    way to the phantom agent, and a [stop] when no agent is active,
    a second [stop] in particular, changes nothing. [get] returns exactly
    when an agent is active. *)
Theorem stop_leaves_no_active_agent (st : State) :
  isActive (stop st) = false /\
  get (stop st) = Throw "The agent must be initialized by calling start." /\
  (isActive st = true ->
   agent TraceAgent (stop st) = None /\
   exists a, agent TraceAgent st = Some a /\
             stopped TraceAgent (stop st) = stopped TraceAgent st ++ [a]) /\
  (isActive st = false -> stop st = st) /\
  stop (stop st) = stop st /\
  (get st = Return tt <-> isActive st = true).
Proof.
  assert (isActive (stop st) = false) as Hoff.
  { unfold AgentIndex.stop. destruct (isActive st) eqn:Ha; [|exact Ha].
    unfold AgentIndex.isActive in *. by destruct (agent TraceAgent st). }
  split; [exact Hoff|]. split; [|split; [|split; [|split]]].
  - unfold AgentIndex.get. by rewrite Hoff.
  - intros Ha. unfold AgentIndex.stop. rewrite Ha.
    unfold AgentIndex.isActive in Ha.
    destruct (agent TraceAgent st) as [a|] eqn:Hagent; [|done].
    split; [done|]. by exists a.
  - intros Ha. unfold AgentIndex.stop. by rewrite Ha.
  - unfold AgentIndex.stop at 1. by rewrite Hoff.
  - unfold AgentIndex.get. by destruct (isActive st).
Qed.

(** With GCLOUD_PROJECT in the environment the project id is the
    environment's, a string, whatever was passed to [start]: no metadata
    lookup is begun, and a project id of the wrong type in the
    configuration does not keep the agent from starting. *)
Theorem environment_project_needs_no_lookup (pc : ProjectConfig) (st : State)
    (project : string) :
  env !! "GCLOUD_PROJECT" = Some project ->
  let config := (initConfig pc).1 in
  projectId config = Some (PidString project) /\
  lookups TraceAgent (start pc st).2 = lookups TraceAgent st /\
  ((isActive st = false \/ forceNewAgent_ config = true) ->
   enabled config = true -> node_supported = true ->
   In (onUncaughtException config) onUncaughtExceptionValues ->
   agent TraceAgent (start pc st).2 =
     Some (TraceAgent_get config (clamp_logLevel (logLevel config)))).
Proof.
  intros Henv. cbn zeta.
  assert (projectId (initConfig pc).1 = Some (PidString project)) as Hpid0.
  { unfold AgentIndex.initConfig. rewrite Henv.
    destruct (env !! "GCLOUD_TRACE_LOGLEVEL") as [value|]; [|done].
    by destruct (parseInt value). }
  split; [exact Hpid0|]. revert Hpid0.
  start_cases pc st; intros Hpid0; try discriminate;
    (split; [done|]); intros Hgo He Hn Hv; try done; by destruct Hgo.
Qed.

(** The answer of the metadata service: an error, or a status code other
    than 200 even without an error, is logged and leaves no active agent,
    the configuration staying without project; otherwise the project
    delivered becomes the configuration's project id and nothing else
    changes. *)
Theorem metadata_answer_sets_project_or_disables (config : AgentConfig)
    (level : Z) (err : option string) (response : option Z)
    (project : string) (st : State) :
  let failed :=
    is_Some err \/ exists code, response = Some code /\ code <> 200%Z in
  (failed ->
   (metadata_callback config level err response project st).1 = config /\
   isActive (metadata_callback config level err response project st).2
     = false /\
   exists e,
     logs TraceAgent (metadata_callback config level err response project st).2
     = logs TraceAgent st ++ [mkLogCall level LError e []]) /\
  (~ failed ->
   metadata_callback config level err response project st =
   (set_projectId (PidString project) config, st)).
Proof.
  cbn zeta. unfold AgentIndex.metadata_callback.
  assert (forall st0 : State, isActive (stop st0) = false) as Hoff.
  { intros st0. unfold AgentIndex.stop.
    destruct (isActive st0) eqn:Ha; [|exact Ha].
    unfold AgentIndex.isActive in *. by destruct (agent TraceAgent st0). }
  assert (forall st0 : State, logs TraceAgent (stop st0) = logs TraceAgent st0)
    as Hlogs.
  { intros st0. unfold AgentIndex.stop. destruct (isActive st0); [|done].
    by destruct (agent TraceAgent st0). }
  split.
  - intros Hfailed.
    match goal with
    | |- context [match ?E with Some _ => _ | None => _ end] =>
        assert (is_Some E) as [e He]
    end.
    { destruct response as [code|].
      - destruct (code =? 200)%Z eqn:E; cbn [negb].
        + apply Z.eqb_eq in E. destruct Hfailed as [?|(c & [= <-] & ?)]; done.
        + by destruct (code =? 503)%Z.
      - destruct Hfailed as [?|(c & ? & _)]; done. }
    rewrite He. cbn [fst snd]. split; [done|]. split; [apply Hoff|].
    rewrite Hlogs. by eexists.
  - intros Hok.
    destruct err as [e|]; [exfalso; apply Hok; left; by eexists|].
    destruct response as [code|]; [|done].
    destruct (code =? 200)%Z eqn:E; [done|].
    apply Z.eqb_neq in E. exfalso. apply Hok. right. by exists code.
Qed.

End Host.

(** Six levels: a level of 9 is brought down to 5. *)
Lemma start_logs_at_an_existing_level_witness :
  (0 < 6)%Z /\ clamp_logLevel 6 9 = 5%Z.
Proof.
  split; [lia|].
  destruct (start_logs_at_an_existing_level (fun f => Some f) []
              IndexSamples.sample_defaults ∅ (fun _ => None) (fun _ => "[]")
              6 true unit (fun _ _ => tt) (fun _ => true)
              IndexSamples.numeric_project IndexSamples.fresh
              (mkLogCall 0 LError "" []) 9 ltac:(lia))
    as (_ & _ & _ & Hbeyond).
  apply Hbeyond. lia.
Defined.

(** [start({projectId: 42})] with GCLOUD_PROJECT set: no lookup is
    begun. *)
Lemma environment_project_needs_no_lookup_witness :
  ({[ "GCLOUD_PROJECT" := "env-project" ]} : gmap string string)
    !! "GCLOUD_PROJECT" = Some "env-project" /\
  lookups unit
    (start (fun f => Some f) [] IndexSamples.sample_defaults
       {[ "GCLOUD_PROJECT" := "env-project" ]} (fun _ => None)
       (fun _ => "[]") 6 true unit (fun _ _ => tt) (fun _ => true)
       IndexSamples.numeric_project IndexSamples.fresh).2 = [].
Proof.
  assert (({[ "GCLOUD_PROJECT" := "env-project" ]} : gmap string string)
            !! "GCLOUD_PROJECT" = Some "env-project") as Henv
    by reflexivity.
  split; [exact Henv|].
  destruct (environment_project_needs_no_lookup (fun f => Some f) []
              IndexSamples.sample_defaults
              {[ "GCLOUD_PROJECT" := "env-project" ]} (fun _ => None)
              (fun _ => "[]") 6 true unit (fun _ _ => tt) (fun _ => true)
              IndexSamples.numeric_project IndexSamples.fresh "env-project"
              Henv) as (_ & Hlookups & _).
  rewrite Hlookups. reflexivity.
Defined.

End IndexProperties.
